(** * Job lifecycle and log reconciliation of the ingestion dashboard

    A shallow embedding of [IngestionDashboard] (src/app/page.tsx, the
    version with the three tabs "statements", "internal" and "dre"):
    the React state of the component, its event handlers, the polling
    effect, and the browser resources they use (interval timers and
    requests in flight). *)

From stdpp Require Import base strings list gmap.

Local Open Scope string_scope.
Local Open Scope list_scope.
Local Open Scope nat_scope.

(** ** Log entries *)

(** [type LogType = 'info' | 'success' | 'error' | 'server'] *)
Inductive LogType := info | success | error | server.

#[global] Instance LogType_eq_dec : EqDecision LogType.
Proof. solve_decision. Defined.

(** [interface LogMessage { type: LogType; text: string }] *)
Record LogMessage := { type : LogType; text : string }.

#[global] Instance LogMessage_eq_dec : EqDecision LogMessage.
Proof. solve_decision. Defined.

(** ** The transcript updater of [addLogs]

    [addLogs] passes this function to [setLogMessages]:
    [existingTexts] is the [Set] built from the texts of the current
    logs, once, before the batch is filtered. *)
Definition existingTexts (currentLogs : list LogMessage) : gset string :=
  list_to_set (text <$> currentLogs).

Definition filteredNewLogs (newLogs currentLogs : list LogMessage)
  : list LogMessage :=
  filter (λ log, text log ∉ existingTexts currentLogs) newLogs.

Definition addLogsUpdater (newLogs currentLogs : list LogMessage)
  : list LogMessage :=
  if decide (0 < length (filteredNewLogs newLogs currentLogs))
  then currentLogs ++ filteredNewLogs newLogs currentLogs
  else currentLogs.

(** ** Values coming from the network

    What [catch (error)] can receive: an [Error] object with its
    [message], or some other thrown value. *)
Inductive Thrown := ErrorObject (message : string) | NotAnError.

(** [error instanceof Error ? error.message : "An unknown error occurred"] *)
Definition errorMessage (e : Thrown) : string :=
  match e with
  | ErrorObject m => m
  | NotAnError => "An unknown error occurred"
  end.

(** [file.name] is the only property of a [File] the component reads. *)
Record File := { name : string }.

(** The [detail] field of a failure body:
    [{ detail: string | { message: string } }], or no such field. *)
Inductive Detail :=
  | DetailAbsent
  | DetailString (s : string)
  | DetailObject (message : option string).

(** A JavaScript string is truthy unless it is empty. *)
Definition truthyString (s : string) : bool := bool_decide (s ≠ "").

(** The string [new Error(v)] gets as its message for an object [v]. *)
Definition objectToString : string := "[object Object]".

(** [data.detail?.message || data.detail || 'Upload failed'], as the
    message of the [Error] thrown on a response that is not ok. *)
Definition uploadFailureMessage (d : Detail) : string :=
  match d with
  | DetailAbsent => "Upload failed"
  | DetailString s => if truthyString s then s else "Upload failed"
  | DetailObject (Some m) => if truthyString m then m else objectToString
  | DetailObject None => objectToString
  end.

(** [data.detail || 'Failed to generate report'] *)
Definition reportFailureMessage (d : Detail) : string :=
  match d with
  | DetailAbsent => "Failed to generate report"
  | DetailString s => if truthyString s then s else "Failed to generate report"
  | DetailObject _ => objectToString
  end.

(** The value held by [currentJobId]: [string | null], and [undefined]
    when [data.job_id] is read from a body without that field. *)
Inductive JobIdValue := null | undefined | jobString (s : string).

#[global] Instance JobIdValue_eq_dec : EqDecision JobIdValue.
Proof. solve_decision. Defined.

Definition truthyJobId (j : JobIdValue) : bool :=
  match j with
  | jobString s => truthyString s
  | null | undefined => false
  end.

(** The parsed body of an upload response: its [detail] and [job_id]
    fields ([None] when the field is absent). *)
Record UploadBody := { detail : Detail; job_id : option string }.

Definition jobIdOf (data : UploadBody) : JobIdValue :=
  match job_id data with
  | Some s => jobString s
  | None => undefined
  end.

(** How [await fetch(endpoint, ...)] followed by [await response.json()]
    ends in [handleUpload]. *)
Inductive UploadFetch :=
  | UploadRejected (e : Thrown)
  | UploadBadJson (e : Thrown)
  | UploadResponse (ok : bool) (data : UploadBody).

(** How [await fetch(`/api/get_logs?job_id=...`)] followed by
    [response.json()] ends in the interval callback; [response.ok] is
    tested before the body is parsed. *)
Inductive LogsFetch :=
  | LogsRejected (e : Thrown)
  | LogsNotOk (statusText : string)
  | LogsBadJson (e : Thrown)
  | LogsResponse (logs : option (list LogMessage)).

(** The report payload is passed through as it is. *)
Record DREData := { payload : string }.

Inductive ReportFetch :=
  | ReportRejected (e : Thrown)
  | ReportBadJson (e : Thrown)
  | ReportResponse (ok : bool) (d : Detail) (data : DREData).

(** Requests the component has issued and that have not settled. *)
Inductive Request :=
  | PostFile (endpoint : string) (file : File)
  | GetLogs (jobId : string)
  | GetMonthlyDre (year month : string).

#[global] Instance File_eq_dec : EqDecision File.
Proof. solve_decision. Defined.
#[global] Instance Request_eq_dec : EqDecision Request.
Proof. solve_decision. Defined.

(** ** The component state

    The cells of [useState], the [pollingIntervalRef] ref, and the
    browser resources the handlers act on. *)
Record ReportPanel := {
  reportYear : option string;
  reportMonth : option string;
  dreData : option DREData;
  isReportLoading : bool;
}.

Record Browser := {
  intervals : gmap positive string;  (* live [setInterval] timers, with the job id their callback closes over *)
  nextIntervalId : positive;         (* the id the next [setInterval] returns *)
  inflight : list Request;           (* requests issued and not settled *)
  alerts : list string;              (* messages shown with [alert], oldest first *)
  scrollTimeouts : nat;              (* [setTimeout(scrollToBottom, 10)] calls made *)
}.

Record Dashboard := {
  bankFile : option File;
  internalFile : option File;
  isProcessing : bool;
  currentJobId : JobIdValue;
  logMessages : list LogMessage;
  reportPanel : ReportPanel;
  pollingIntervalRef : option positive;
  browser : Browser;
}.

(** *** State setters *)

Definition setBankFile (v : option File) (st : Dashboard) : Dashboard :=
  {| bankFile := v; internalFile := internalFile st;
     isProcessing := isProcessing st; currentJobId := currentJobId st;
     logMessages := logMessages st; reportPanel := reportPanel st;
     pollingIntervalRef := pollingIntervalRef st; browser := browser st |}.

Definition setInternalFile (v : option File) (st : Dashboard) : Dashboard :=
  {| bankFile := bankFile st; internalFile := v;
     isProcessing := isProcessing st; currentJobId := currentJobId st;
     logMessages := logMessages st; reportPanel := reportPanel st;
     pollingIntervalRef := pollingIntervalRef st; browser := browser st |}.

Definition setIsProcessing (v : bool) (st : Dashboard) : Dashboard :=
  {| bankFile := bankFile st; internalFile := internalFile st;
     isProcessing := v; currentJobId := currentJobId st;
     logMessages := logMessages st; reportPanel := reportPanel st;
     pollingIntervalRef := pollingIntervalRef st; browser := browser st |}.

Definition setCurrentJobId (v : JobIdValue) (st : Dashboard) : Dashboard :=
  {| bankFile := bankFile st; internalFile := internalFile st;
     isProcessing := isProcessing st; currentJobId := v;
     logMessages := logMessages st; reportPanel := reportPanel st;
     pollingIntervalRef := pollingIntervalRef st; browser := browser st |}.

Definition setLogMessages (v : list LogMessage) (st : Dashboard) : Dashboard :=
  {| bankFile := bankFile st; internalFile := internalFile st;
     isProcessing := isProcessing st; currentJobId := currentJobId st;
     logMessages := v; reportPanel := reportPanel st;
     pollingIntervalRef := pollingIntervalRef st; browser := browser st |}.

Definition withReportPanel (v : ReportPanel) (st : Dashboard) : Dashboard :=
  {| bankFile := bankFile st; internalFile := internalFile st;
     isProcessing := isProcessing st; currentJobId := currentJobId st;
     logMessages := logMessages st; reportPanel := v;
     pollingIntervalRef := pollingIntervalRef st; browser := browser st |}.

Definition withPollingIntervalRef (v : option positive) (st : Dashboard)
  : Dashboard :=
  {| bankFile := bankFile st; internalFile := internalFile st;
     isProcessing := isProcessing st; currentJobId := currentJobId st;
     logMessages := logMessages st; reportPanel := reportPanel st;
     pollingIntervalRef := v; browser := browser st |}.

Definition withBrowser (v : Browser) (st : Dashboard) : Dashboard :=
  {| bankFile := bankFile st; internalFile := internalFile st;
     isProcessing := isProcessing st; currentJobId := currentJobId st;
     logMessages := logMessages st; reportPanel := reportPanel st;
     pollingIntervalRef := pollingIntervalRef st; browser := v |}.

Definition setReportYear (v : option string) (st : Dashboard) : Dashboard :=
  let p := reportPanel st in
  withReportPanel {| reportYear := v; reportMonth := reportMonth p;
                     dreData := dreData p;
                     isReportLoading := isReportLoading p |} st.

Definition setReportMonth (v : option string) (st : Dashboard) : Dashboard :=
  let p := reportPanel st in
  withReportPanel {| reportYear := reportYear p; reportMonth := v;
                     dreData := dreData p;
                     isReportLoading := isReportLoading p |} st.

Definition setDreData (v : option DREData) (st : Dashboard) : Dashboard :=
  let p := reportPanel st in
  withReportPanel {| reportYear := reportYear p; reportMonth := reportMonth p;
                     dreData := v;
                     isReportLoading := isReportLoading p |} st.

Definition setIsReportLoading (v : bool) (st : Dashboard) : Dashboard :=
  let p := reportPanel st in
  withReportPanel {| reportYear := reportYear p; reportMonth := reportMonth p;
                     dreData := dreData p; isReportLoading := v |} st.

(** *** Browser operations *)

(** [setInterval(callback, 2000)], for a callback that closes over
    [jobId]: registers the timer and stores its id in the ref, as
    [pollingIntervalRef.current = setInterval(...)] does. *)
Definition setInterval (jobId : string) (st : Dashboard) : Dashboard :=
  let b := browser st in
  let id := nextIntervalId b in
  withPollingIntervalRef (Some id)
    (withBrowser {| intervals := <[id := jobId]> (intervals b);
                    nextIntervalId := Pos.succ id;
                    inflight := inflight b; alerts := alerts b;
                    scrollTimeouts := scrollTimeouts b |} st).

Definition clearInterval (id : positive) (st : Dashboard) : Dashboard :=
  let b := browser st in
  withBrowser {| intervals := delete id (intervals b);
                 nextIntervalId := nextIntervalId b;
                 inflight := inflight b; alerts := alerts b;
                 scrollTimeouts := scrollTimeouts b |} st.

(** [fetch(...)]: the request is in flight until it settles. *)
Definition fetch (r : Request) (st : Dashboard) : Dashboard :=
  let b := browser st in
  withBrowser {| intervals := intervals b;
                 nextIntervalId := nextIntervalId b;
                 inflight := inflight b ++ [r]; alerts := alerts b;
                 scrollTimeouts := scrollTimeouts b |} st.

(** The request at position [i] has settled. *)
Definition settle (i : nat) (st : Dashboard) : Dashboard :=
  let b := browser st in
  withBrowser {| intervals := intervals b;
                 nextIntervalId := nextIntervalId b;
                 inflight := delete i (inflight b); alerts := alerts b;
                 scrollTimeouts := scrollTimeouts b |} st.

Definition alert (msg : string) (st : Dashboard) : Dashboard :=
  let b := browser st in
  withBrowser {| intervals := intervals b;
                 nextIntervalId := nextIntervalId b;
                 inflight := inflight b; alerts := alerts b ++ [msg];
                 scrollTimeouts := scrollTimeouts b |} st.

(** [setTimeout(scrollToBottom, 10)] *)
Definition scheduleScroll (st : Dashboard) : Dashboard :=
  let b := browser st in
  withBrowser {| intervals := intervals b;
                 nextIntervalId := nextIntervalId b;
                 inflight := inflight b; alerts := alerts b;
                 scrollTimeouts := S (scrollTimeouts b) |} st.

(** ** Handlers *)

(** [haystack.includes(needle)]: [needle] occurs in [haystack] as a
    contiguous, case-sensitive substring. *)
Fixpoint includes (needle haystack : string) : bool :=
  String.prefix needle haystack
  || match haystack with
     | EmptyString => false
     | String _ rest => includes needle rest
     end.

(** [addLogs(newLogs)]: the updater is applied to [logMessages]; a
    scroll is scheduled only when something is appended. *)
Definition addLogs (newLogs : list LogMessage) (st : Dashboard) : Dashboard :=
  let currentLogs := logMessages st in
  if decide (0 < length (filteredNewLogs newLogs currentLogs))
  then setLogMessages (currentLogs ++ filteredNewLogs newLogs currentLogs)
         (scheduleScroll st)
  else st.

Definition stopPolling (st : Dashboard) : Dashboard :=
  match pollingIntervalRef st with
  | Some id => withPollingIntervalRef None (clearInterval id st)
  | None => st
  end.

(** The body of the polling effect. *)
Definition pollingEffect (st : Dashboard) : Dashboard :=
  match currentJobId st with
  | jobString jobId =>
      if truthyString jobId && isProcessing st then setInterval jobId st
      else st
  | null | undefined => st
  end.

(** After a handler has run React renders again, once for all the
    updates the handler queued; when one of the dependencies
    [[currentJobId, isProcessing]] differs from the last render, the
    cleanup [() => stopPolling()] runs and then the effect body. The
    render and its effect belong to the turn of the event loop that
    ran the handler. Of the render only this effect is modelled: the
    JSX that reads the fields of [dreData] is not, so what follows an
    ok report answer is told for the state cells only. *)
Definition commit (prev next : Dashboard) : Dashboard :=
  if decide (currentJobId prev = currentJobId next
             ∧ isProcessing prev = isProcessing next)
  then next
  else pollingEffect (stopPolling next).

(** The condition under which the interval callback ends the job. *)
Definition isTerminalLog (lastLog : LogMessage) : bool :=
  (bool_decide (type lastLog = success) || bool_decide (type lastLog = error))
  && includes "Job" (text lastLog).

(** The [catch] block of the interval callback. *)
Definition pollCatch (e : Thrown) (st : Dashboard) : Dashboard :=
  let st := addLogs [ {| type := error;
                         text := "Failed to fetch logs: " +:+ errorMessage e |} ] st in
  let st := stopPolling st in
  setIsProcessing false st.

(** The interval callback after its [fetch] has settled with [r]. *)
Definition pollSettled (r : LogsFetch) (st : Dashboard) : Dashboard :=
  match r with
  | LogsRejected e => pollCatch e st
  | LogsNotOk statusText =>
      pollCatch (ErrorObject ("Server error: " +:+ statusText)) st
  | LogsBadJson e => pollCatch e st
  | LogsResponse None => st
  | LogsResponse (Some newLogs) =>
      if decide (0 < length newLogs) then
        let st := addLogs newLogs st in
        match newLogs !! (length newLogs - 1) with
        | Some lastLog =>
            if isTerminalLog lastLog then
              let st := stopPolling st in
              let st := setIsProcessing false st in
              let st := setBankFile None st in
              setInternalFile None st
            else st
        | None =>
            (* [lastLog.type] on [undefined] throws a [TypeError] *)
            pollCatch (ErrorObject "Cannot read properties of undefined (reading 'type')") st
        end
      else st
  end.

(** The interval callback when the timer fires: one [fetch] for the
    job id it closes over. *)
Definition pollTick (jobId : string) (st : Dashboard) : Dashboard :=
  fetch (GetLogs jobId) st.

Definition onBankFileChange (selectedFile : option File) (st : Dashboard)
  : Dashboard :=
  match selectedFile with
  | Some f =>
      let st := setBankFile (Some f) st in
      let st := setLogMessages
                  [ {| type := info;
                       text := "Bank file selected: " +:+ name f |} ] st in
      setCurrentJobId null st
  | None => st
  end.

Definition onInternalFileChange (selectedFile : option File) (st : Dashboard)
  : Dashboard :=
  match selectedFile with
  | Some f =>
      let st := setInternalFile (Some f) st in
      let st := setLogMessages
                  [ {| type := info;
                       text := "Internal file selected: " +:+ name f |} ] st in
      setCurrentJobId null st
  | None => st
  end.

(** [handleUpload(file, endpoint)] up to its first [await]. *)
Definition handleUpload (file : option File) (endpoint : string)
  (st : Dashboard) : Dashboard :=
  match file with
  | None =>
      addLogs [ {| type := error; text := "No file selected to upload." |} ] st
  | Some f =>
      let st := setIsProcessing true st in
      let st := setCurrentJobId null st in
      let st := setLogMessages [] st in
      let st := addLogs [ {| type := info;
                             text := "Uploading " +:+ name f +:+ " to "
                                     +:+ endpoint +:+ "..." |} ] st in
      fetch (PostFile endpoint f) st
  end.

(** The [catch] block of [handleUpload]. *)
Definition uploadCatch (e : Thrown) (st : Dashboard) : Dashboard :=
  let st := addLogs [ {| type := error;
                         text := "Upload failed: " +:+ errorMessage e |} ] st in
  let st := setIsProcessing false st in
  let st := setBankFile None st in
  setInternalFile None st.

(** [handleUpload] after its request has settled with [r]. *)
Definition uploadSettled (r : UploadFetch) (st : Dashboard) : Dashboard :=
  match r with
  | UploadRejected e => uploadCatch e st
  | UploadBadJson e => uploadCatch e st
  | UploadResponse false data =>
      uploadCatch (ErrorObject (uploadFailureMessage (detail data))) st
  | UploadResponse true data =>
      let st := addLogs [ {| type := success;
                             text := "Upload complete. Processing..." |} ] st in
      setCurrentJobId (jobIdOf data) st
  end.

(** [!reportYear || !reportMonth] *)
Definition reportPeriod (st : Dashboard) : option (string * string) :=
  match reportYear (reportPanel st), reportMonth (reportPanel st) with
  | Some y, Some m =>
      if truthyString y && truthyString m then Some (y, m) else None
  | _, _ => None
  end.

(** [handleGenerateReport()] up to its first [await]. *)
Definition handleGenerateReport (st : Dashboard) : Dashboard :=
  match reportPeriod st with
  | None => alert "Please select a year and month." st
  | Some (y, m) =>
      let st := setIsReportLoading true st in
      let st := setDreData None st in
      fetch (GetMonthlyDre y m) st
  end.

Definition reportCatch (e : Thrown) (st : Dashboard) : Dashboard :=
  alert ("Report Error: " +:+ errorMessage e) st.

(** [handleGenerateReport] after its request has settled; the
    [finally] block runs on every path. *)
Definition reportSettled (r : ReportFetch) (st : Dashboard) : Dashboard :=
  let st :=
    match r with
    | ReportRejected e => reportCatch e st
    | ReportBadJson e => reportCatch e st
    | ReportResponse false d _ =>
        reportCatch (ErrorObject (reportFailureMessage d)) st
    | ReportResponse true _ data => setDreData (Some data) st
    end in
  setIsReportLoading false st.

(** ** Events

    What the browser can deliver to the component: clicks and choices
    on the rendered controls, a firing interval timer, and the
    settling of a request in flight. Which tab is shown is not
    tracked: a control can be used whenever it is enabled. *)
Inductive Event :=
  | PickBankFile (selectedFile : option File)
  | PickInternalFile (selectedFile : option File)
  | ClickUploadBank
  | ClickUploadInternal
  | SelectMonth (value : option string)
  | SelectYear (value : option string)
  | ClickGenerateReport
  | IntervalFires (id : positive)
  | UploadSettles (i : nat) (r : UploadFetch)
  | LogsSettle (i : nat) (r : LogsFetch)
  | ReportSettles (i : nat) (r : ReportFetch).

(** The [data] of the two [Select] controls. *)
Definition monthOptions : list string :=
  ["1"; "2"; "3"; "4"; "5"; "6"; "7"; "8"; "9"; "10"; "11"; "12"].
Definition yearOptions : list string := ["2023"; "2024"; "2025"; "2026"].

(** The values a [Select] with this [data] can report: one of its
    options, or [null] when cleared. *)
Definition selectable (options : list string) (value : option string) : bool :=
  match value with
  | Some v => bool_decide (v ∈ options)
  | None => true
  end.

(** [disabled={!file || isProcessing}] on the two upload buttons. *)
Definition uploadDisabled (file : option File) (st : Dashboard) : bool :=
  negb (bool_decide (is_Some file)) || isProcessing st.

(** The handler an event runs, when the control it comes from is
    enabled and the timer or request it names exists. The two selects
    hand their value to the setter as it is:
    [onChange={setReportMonth}], [onChange={setReportYear}]. *)
Definition handle (e : Event) (st : Dashboard) : Dashboard :=
  match e with
  | PickBankFile selectedFile =>
      if isProcessing st then st else onBankFileChange selectedFile st
  | PickInternalFile selectedFile =>
      if isProcessing st then st else onInternalFileChange selectedFile st
  | ClickUploadBank =>
      if uploadDisabled (bankFile st) st then st
      else handleUpload (bankFile st) "/api/ingest" st
  | ClickUploadInternal =>
      if uploadDisabled (internalFile st) st then st
      else handleUpload (internalFile st) "/api/ingest_internal" st
  | SelectMonth value => setReportMonth value st
  | SelectYear value => setReportYear value st
  | ClickGenerateReport => handleGenerateReport st
  | IntervalFires id =>
      match intervals (browser st) !! id with
      | Some jobId => pollTick jobId st
      | None => st
      end
  | UploadSettles i r =>
      match inflight (browser st) !! i with
      | Some (PostFile _ _) => uploadSettled r (settle i st)
      | _ => st
      end
  | LogsSettle i r =>
      match inflight (browser st) !! i with
      | Some (GetLogs _) => pollSettled r (settle i st)
      | _ => st
      end
  | ReportSettles i r =>
      match inflight (browser st) !! i with
      | Some (GetMonthlyDre _ _) => reportSettled r (settle i st)
      | _ => st
      end
  end.

(** One turn of the event loop: the handler, then the render. *)
Definition step (e : Event) (st : Dashboard) : Dashboard :=
  commit st (handle e st).

Definition run (es : list Event) (st : Dashboard) : Dashboard :=
  foldl (λ st e, step e st) st es.

(** The component as mounted; [year] and [month] are today's, from
    [new Date()]. The effect body runs once and starts nothing. *)
Definition initialDashboard (year month : string) : Dashboard :=
  {| bankFile := None; internalFile := None;
     isProcessing := false; currentJobId := null;
     logMessages := [ {| type := info; text := "Waiting for file..." |} ];
     reportPanel := {| reportYear := Some year; reportMonth := Some month;
                       dreData := None; isReportLoading := false |};
     pollingIntervalRef := None;
     browser := {| intervals := ∅; nextIntervalId := 1%positive;
                   inflight := []; alerts := []; scrollTimeouts := 0 |} |}.

Inductive reachable : Dashboard → Prop :=
  | reachable_init year month : reachable (initialDashboard year month)
  | reachable_step e st : reachable st → reachable (step e st).

(** Requests for the logs of [jobId] that are in flight. *)
Definition pollsInFlight (jobId : string) (st : Dashboard) : nat :=
  length (filter (λ r, r = GetLogs jobId) (inflight (browser st))).

(** Live interval timers. *)
Definition activePollers (st : Dashboard) : nat :=
  size (intervals (browser st)).

Definition demoFile : File := {| name := "extrato.pdf" |}.

Definition demoProcessing : Dashboard :=
  run [ PickBankFile (Some demoFile); ClickUploadBank;
        UploadSettles 0 (UploadResponse true
                           {| detail := DetailAbsent; job_id := Some "abc" |}) ]
      (initialDashboard "2025" "11").

(** ** Invariants and frames *)

(** The fields of the state other than the transcript and the scroll
    counter, which [addLogs] never touches. *)
Definition sameBut_logs (st st' : Dashboard) : Prop :=
  bankFile st' = bankFile st ∧ internalFile st' = internalFile st
  ∧ isProcessing st' = isProcessing st ∧ currentJobId st' = currentJobId st
  ∧ reportPanel st' = reportPanel st
  ∧ pollingIntervalRef st' = pollingIntervalRef st
  ∧ intervals (browser st') = intervals (browser st)
  ∧ nextIntervalId (browser st') = nextIntervalId (browser st)
  ∧ inflight (browser st') = inflight (browser st)
  ∧ alerts (browser st') = alerts (browser st).

(** The fields the render (cleanup and effect body) never touches. *)
Definition sameBut_timers (st st' : Dashboard) : Prop :=
  bankFile st' = bankFile st ∧ internalFile st' = internalFile st
  ∧ isProcessing st' = isProcessing st ∧ currentJobId st' = currentJobId st
  ∧ logMessages st' = logMessages st
  ∧ reportPanel st' = reportPanel st
  ∧ inflight (browser st') = inflight (browser st)
  ∧ alerts (browser st') = alerts (browser st)
  ∧ scrollTimeouts (browser st') = scrollTimeouts (browser st).

(** The only live timer is the one [pollingIntervalRef] holds; it
    polls for the current job of a processing component, and it is
    there whenever the component is processing with a job id. *)
Definition pollerInvariant (st : Dashboard) : Prop :=
  match pollingIntervalRef st with
  | None =>
      intervals (browser st) = ∅
      ∧ truthyJobId (currentJobId st) && isProcessing st = false
  | Some id =>
      ∃ jobId, intervals (browser st) = {[ id := jobId ]}
               ∧ currentJobId st = jobString jobId
               ∧ truthyString jobId = true
               ∧ isProcessing st = true
  end.

Definition timersOf (st : Dashboard) : option positive * gmap positive string :=
  (pollingIntervalRef st, intervals (browser st)).

(** The timer table holds nothing but the timer of the ref. *)
Definition tidy (st : Dashboard) : Prop :=
  match pollingIntervalRef st with
  | None => intervals (browser st) = ∅
  | Some id => ∃ jobId, intervals (browser st) = {[ id := jobId ]}
  end.

(** ** Failures of requests *)

(** How an upload request can fail, and the message the [catch] block
    then reads: a rejected [fetch], a body that is not JSON, or a
    response that is not ok. *)
Inductive uploadFails : UploadFetch → string → Prop :=
  | uploadFails_network e :
      uploadFails (UploadRejected e) (errorMessage e)
  | uploadFails_malformed e :
      uploadFails (UploadBadJson e) (errorMessage e)
  | uploadFails_status data :
      uploadFails (UploadResponse false data)
                  (uploadFailureMessage (detail data)).

(** How a log request can fail, and the message the [catch] block
    then reads. *)
Inductive pollFails : LogsFetch → string → Prop :=
  | pollFails_network e :
      pollFails (LogsRejected e) (errorMessage e)
  | pollFails_status statusText :
      pollFails (LogsNotOk statusText) ("Server error: " +:+ statusText)
  | pollFails_malformed e :
      pollFails (LogsBadJson e) (errorMessage e).

(** The upload pipeline does not handle these events. *)
Definition touchesReport (e : Event) : bool :=
  match e with
  | SelectMonth _ | SelectYear _ | ClickGenerateReport | ReportSettles _ _ => true
  | _ => false
  end.

(** ** Sample runs *)

Definition demoUploading : Dashboard :=
  run [ PickBankFile (Some demoFile); ClickUploadBank ]
      (initialDashboard "2025" "11").

(** The upload answered 200 with the body [{}]. *)
Definition demoNoJobId : Dashboard :=
  step (UploadSettles 0 (UploadResponse true
                           {| detail := DetailAbsent; job_id := None |}))
       demoUploading.

(** A processing component whose transcript already shows the line
    "Job 42 done", with one log request in flight. *)
Definition demoSeen : Dashboard :=
  run [ IntervalFires 1;
        LogsSettle 0 (LogsResponse
                        (Some [ {| type := server; text := "Job 42 done" |} ]));
        IntervalFires 1 ]
      demoProcessing.

(** Two log requests were in flight when the server went away; the
    first failure has been handled. *)
Definition demoFirstFailure : Dashboard :=
  run [ IntervalFires 1; IntervalFires 1;
        LogsSettle 0 (LogsNotOk "Bad Gateway") ]
      demoProcessing.

Definition demoMonth13 : Dashboard :=
  setReportMonth (Some "13") (initialDashboard "2024" "1").

#[global] Arguments addLogs : simpl never.
#[global] Arguments addLogsUpdater : simpl never.
#[global] Arguments filteredNewLogs : simpl never.
#[global] Arguments existingTexts : simpl never.
#[global] Arguments stopPolling : simpl never.
#[global] Arguments pollingEffect : simpl never.
#[global] Arguments commit : simpl never.
#[global] Arguments pollCatch : simpl never.
#[global] Arguments uploadCatch : simpl never.
#[global] Arguments isTerminalLog : simpl never.
#[global] Arguments handleUpload : simpl never.
#[global] Arguments handleGenerateReport : simpl never.

(** A second job has been submitted while a log request of the first
    was still in flight, and that request has then failed: the upload
    of b.pdf is pending and the busy flag is clear. *)
Definition demoPendingUpload : Dashboard :=
  run [ IntervalFires 1; IntervalFires 1;
        LogsSettle 0 (LogsResponse
          (Some [ {| type := success; text := "Job abc finished" |} ]));
        PickBankFile (Some {| name := "b.pdf" |}); ClickUploadBank;
        LogsSettle 0 (LogsNotOk "Bad Gateway") ]
      demoProcessing.

(** How a report request can fail, and the message the [catch] block
    then reads. *)
Inductive reportFails : ReportFetch → string → Prop :=
  | reportFails_network e :
      reportFails (ReportRejected e) (errorMessage e)
  | reportFails_malformed e :
      reportFails (ReportBadJson e) (errorMessage e)
  | reportFails_status d data :
      reportFails (ReportResponse false d data) (reportFailureMessage d).

(** ** Events by what they may do *)

(** The events whose handlers assign the transcript anew,
    [setLogMessages([...])]: a file choice and a submit. All other
    handlers go through [addLogs]. *)
Definition resetsTranscript (e : Event) : bool :=
  match e with
  | PickBankFile _ | PickInternalFile _ | ClickUploadBank | ClickUploadInternal =>
      true
  | _ => false
  end.




(** The two [Select] controls report one of the values in their [data]
    or [null]; every other event is as the browser delivers it. *)
Definition offered (e : Event) : bool :=
  match e with
  | SelectMonth value => selectable monthOptions value
  | SelectYear value => selectable yearOptions value
  | _ => true
  end.


(** An ok answer to a report request: the one event after which the
    page renders a report body. *)
Definition okReportAnswer (e : Event) : bool :=
  match e with
  | ReportSettles _ (ReportResponse true _ _) => true
  | _ => false
  end.

(** ** The first version of the page

    [IngestionDashboard] as it was with a single upload area: one
    [file] cell, the fixed endpoint /api/ingest, and a failure body
    read through its [message] field. Log entries, thrown values, job
    ids, poll answers and the browser are those above. *)
Module SingleFilePage.

Record Page := {
  file : option File;
  isProcessing : bool;
  currentJobId : JobIdValue;
  logMessages : list LogMessage;
  pollingIntervalRef : option positive;
  browser : Browser;
}.

Definition setFile (v : option File) (st : Page) : Page :=
  {| file := v; isProcessing := isProcessing st;
     currentJobId := currentJobId st; logMessages := logMessages st;
     pollingIntervalRef := pollingIntervalRef st; browser := browser st |}.

Definition setIsProcessing (v : bool) (st : Page) : Page :=
  {| file := file st; isProcessing := v;
     currentJobId := currentJobId st; logMessages := logMessages st;
     pollingIntervalRef := pollingIntervalRef st; browser := browser st |}.

Definition setCurrentJobId (v : JobIdValue) (st : Page) : Page :=
  {| file := file st; isProcessing := isProcessing st;
     currentJobId := v; logMessages := logMessages st;
     pollingIntervalRef := pollingIntervalRef st; browser := browser st |}.

Definition setLogMessages (v : list LogMessage) (st : Page) : Page :=
  {| file := file st; isProcessing := isProcessing st;
     currentJobId := currentJobId st; logMessages := v;
     pollingIntervalRef := pollingIntervalRef st; browser := browser st |}.

Definition withPollingIntervalRef (v : option positive) (st : Page) : Page :=
  {| file := file st; isProcessing := isProcessing st;
     currentJobId := currentJobId st; logMessages := logMessages st;
     pollingIntervalRef := v; browser := browser st |}.

Definition withBrowser (v : Browser) (st : Page) : Page :=
  {| file := file st; isProcessing := isProcessing st;
     currentJobId := currentJobId st; logMessages := logMessages st;
     pollingIntervalRef := pollingIntervalRef st; browser := v |}.

Definition setInterval (jobId : string) (st : Page) : Page :=
  let b := browser st in
  let id := nextIntervalId b in
  withPollingIntervalRef (Some id)
    (withBrowser {| intervals := <[id := jobId]> (intervals b);
                    nextIntervalId := Pos.succ id;
                    inflight := inflight b; alerts := alerts b;
                    scrollTimeouts := scrollTimeouts b |} st).

Definition clearInterval (id : positive) (st : Page) : Page :=
  let b := browser st in
  withBrowser {| intervals := delete id (intervals b);
                 nextIntervalId := nextIntervalId b;
                 inflight := inflight b; alerts := alerts b;
                 scrollTimeouts := scrollTimeouts b |} st.

Definition fetch (r : Request) (st : Page) : Page :=
  let b := browser st in
  withBrowser {| intervals := intervals b;
                 nextIntervalId := nextIntervalId b;
                 inflight := inflight b ++ [r]; alerts := alerts b;
                 scrollTimeouts := scrollTimeouts b |} st.

Definition settle (i : nat) (st : Page) : Page :=
  let b := browser st in
  withBrowser {| intervals := intervals b;
                 nextIntervalId := nextIntervalId b;
                 inflight := delete i (inflight b); alerts := alerts b;
                 scrollTimeouts := scrollTimeouts b |} st.

Definition scheduleScroll (st : Page) : Page :=
  let b := browser st in
  withBrowser {| intervals := intervals b;
                 nextIntervalId := nextIntervalId b;
                 inflight := inflight b; alerts := alerts b;
                 scrollTimeouts := S (scrollTimeouts b) |} st.

(** The same helper as in the later versions. *)
Definition addLogs (newLogs : list LogMessage) (st : Page) : Page :=
  let currentLogs := logMessages st in
  if decide (0 < length (filteredNewLogs newLogs currentLogs))
  then setLogMessages (currentLogs ++ filteredNewLogs newLogs currentLogs)
         (scheduleScroll st)
  else st.

Definition stopPolling (st : Page) : Page :=
  match pollingIntervalRef st with
  | Some id => withPollingIntervalRef None (clearInterval id st)
  | None => st
  end.

Definition pollingEffect (st : Page) : Page :=
  match currentJobId st with
  | jobString jobId =>
      if truthyString jobId && isProcessing st then setInterval jobId st
      else st
  | null | undefined => st
  end.

Definition commit (prev next : Page) : Page :=
  if decide (currentJobId prev = currentJobId next
             ∧ isProcessing prev = isProcessing next)
  then next
  else pollingEffect (stopPolling next).

Definition pollCatch (e : Thrown) (st : Page) : Page :=
  let st := addLogs [ {| type := error;
                         text := "Failed to fetch logs: "
                                 +:+ errorMessage e |} ] st in
  let st := stopPolling st in
  setIsProcessing false st.

(** The interval callback after its [fetch] has settled; a terminal
    line clears the file. *)
Definition pollSettled (r : LogsFetch) (st : Page) : Page :=
  match r with
  | LogsRejected e => pollCatch e st
  | LogsNotOk statusText =>
      pollCatch (ErrorObject ("Server error: " +:+ statusText)) st
  | LogsBadJson e => pollCatch e st
  | LogsResponse None => st
  | LogsResponse (Some newLogs) =>
      if decide (0 < length newLogs) then
        let st := addLogs newLogs st in
        match newLogs !! (length newLogs - 1) with
        | Some lastLog =>
            if isTerminalLog lastLog then
              let st := stopPolling st in
              let st := setIsProcessing false st in
              setFile None st
            else st
        | None =>
            pollCatch (ErrorObject "Cannot read properties of undefined (reading 'type')") st
        end
      else st
  end.

Definition onFileChange (selectedFile : option File) (st : Page) : Page :=
  match selectedFile with
  | Some f =>
      let st := setFile (Some f) st in
      let st := setLogMessages
                  [ {| type := info;
                       text := "File selected: " +:+ name f |} ] st in
      setCurrentJobId null st
  | None => st
  end.

(** [handleUpload()] up to its first [await]; the file is the one of
    the render. *)
Definition handleUpload (st : Page) : Page :=
  match file st with
  | None =>
      addLogs [ {| type := error; text := "No file selected to upload." |} ] st
  | Some f =>
      let st := setIsProcessing true st in
      let st := setCurrentJobId null st in
      let st := setLogMessages [] st in
      let st := addLogs [ {| type := info;
                             text := "Uploading " +:+ name f +:+ "..." |} ] st in
      fetch (PostFile "/api/ingest" f) st
  end.

(** The parsed body of the upload answer: its [message] and [job_id]
    fields. *)
Record Body := { message : option string; job_id : option string }.

Inductive UploadFetch :=
  | UploadRejected (e : Thrown)
  | UploadBadJson (e : Thrown)
  | UploadResponse (ok : bool) (data : Body).

(** [data.message || 'Upload failed'] *)
Definition uploadFailureMessage (data : Body) : string :=
  match message data with
  | Some m => if truthyString m then m else "Upload failed"
  | None => "Upload failed"
  end.

(** The [catch] block of [handleUpload]: the file is not touched. *)
Definition uploadCatch (e : Thrown) (st : Page) : Page :=
  let st := addLogs [ {| type := error;
                         text := "Upload failed: " +:+ errorMessage e |} ] st in
  setIsProcessing false st.

Definition uploadSettled (r : UploadFetch) (st : Page) : Page :=
  match r with
  | UploadRejected e => uploadCatch e st
  | UploadBadJson e => uploadCatch e st
  | UploadResponse false data =>
      uploadCatch (ErrorObject (uploadFailureMessage data)) st
  | UploadResponse true data =>
      let st := addLogs [ {| type := success;
                             text := "Upload complete. Processing..." |} ] st in
      setCurrentJobId
        (match job_id data with Some s => jobString s | None => undefined end)
        st
  end.

Inductive Event :=
  | PickFile (selectedFile : option File)
  | ClickUpload
  | IntervalFires (id : positive)
  | UploadSettles (i : nat) (r : UploadFetch)
  | LogsSettle (i : nat) (r : LogsFetch).

(** [disabled={!file || isProcessing}] *)
Definition uploadDisabled (st : Page) : bool :=
  negb (bool_decide (is_Some (file st))) || isProcessing st.

Definition handle (e : Event) (st : Page) : Page :=
  match e with
  | PickFile selectedFile =>
      if isProcessing st then st else onFileChange selectedFile st
  | ClickUpload => if uploadDisabled st then st else handleUpload st
  | IntervalFires id =>
      match intervals (browser st) !! id with
      | Some jobId => fetch (GetLogs jobId) st
      | None => st
      end
  | UploadSettles i r =>
      match inflight (browser st) !! i with
      | Some (PostFile _ _) => uploadSettled r (settle i st)
      | _ => st
      end
  | LogsSettle i r =>
      match inflight (browser st) !! i with
      | Some (GetLogs _) => pollSettled r (settle i st)
      | _ => st
      end
  end.

Definition step (e : Event) (st : Page) : Page := commit st (handle e st).

Definition run (es : list Event) (st : Page) : Page :=
  foldl (λ st e, step e st) st es.

Definition initialPage : Page :=
  {| file := None; isProcessing := false; currentJobId := null;
     logMessages := [ {| type := info; text := "Waiting for file..." |} ];
     pollingIntervalRef := None;
     browser := {| intervals := ∅; nextIntervalId := 1%positive;
                   inflight := []; alerts := []; scrollTimeouts := 0 |} |}.

(** How an upload request can fail on this page. *)
Inductive uploadFails : UploadFetch → string → Prop :=
  | uploadFails_network e :
      uploadFails (UploadRejected e) (errorMessage e)
  | uploadFails_malformed e :
      uploadFails (UploadBadJson e) (errorMessage e)
  | uploadFails_status data :
      uploadFails (UploadResponse false data) (uploadFailureMessage data).

Definition demoUploading : Page :=
  run [ PickFile (Some demoFile); ClickUpload ] initialPage.

Definition demoPolling : Page :=
  run [ UploadSettles 0 (UploadResponse true
                           {| message := None; job_id := Some "abc" |});
        IntervalFires 1 ]
      demoUploading.

#[global] Arguments addLogs : simpl never.
#[global] Arguments stopPolling : simpl never.
#[global] Arguments pollingEffect : simpl never.
#[global] Arguments commit : simpl never.
#[global] Arguments pollCatch : simpl never.
#[global] Arguments uploadCatch : simpl never.
#[global] Arguments handleUpload : simpl never.

End SingleFilePage.

(** * Properties *)

(** ** The transcript *)

Lemma addLogsUpdater_app newLogs currentLogs :
  addLogsUpdater newLogs currentLogs
  = currentLogs ++ filteredNewLogs newLogs currentLogs.
Proof.
  unfold addLogsUpdater. case_decide as Hlen; [done|].
  destruct (filteredNewLogs newLogs currentLogs); simpl in *; [|lia].
  by rewrite app_nil_r.
Qed.

Lemma logMessages_addLogs newLogs st :
  logMessages (addLogs newLogs st) = addLogsUpdater newLogs (logMessages st).
Proof. unfold addLogs, addLogsUpdater. by case_decide. Qed.

Lemma elem_of_existingTexts s currentLogs :
  s ∈ existingTexts currentLogs ↔ s ∈ text <$> currentLogs.
Proof. unfold existingTexts. by rewrite elem_of_list_to_set. Qed.

Lemma filteredNewLogs_nil newLogs currentLogs :
  (∀ log, log ∈ newLogs → text log ∈ text <$> currentLogs) →
  filteredNewLogs newLogs currentLogs = [].
Proof.
  intros Hall. unfold filteredNewLogs.
  induction newLogs as [|log rest IH]; [done|].
  rewrite filter_cons_False.
  - apply IH. intros l Hl. apply Hall. by right.
  - intros Hfresh. apply Hfresh, elem_of_existingTexts, Hall. by left.
Qed.

Lemma filteredNewLogs_fresh log currentLogs :
  text log ∉ text <$> currentLogs →
  filteredNewLogs [log] currentLogs = [log].
Proof.
  intros Hfresh. unfold filteredNewLogs.
  rewrite filter_cons_True; [done|]. by rewrite elem_of_existingTexts.
Qed.

Lemma addLogsUpdater_fresh log currentLogs :
  text log ∉ text <$> currentLogs →
  addLogsUpdater [log] currentLogs = currentLogs ++ [log].
Proof.
  intros Hfresh. by rewrite addLogsUpdater_app, filteredNewLogs_fresh.
Qed.

Lemma addLogsUpdater_present newLogs currentLogs :
  (∀ log, log ∈ newLogs → text log ∈ text <$> currentLogs) →
  addLogsUpdater newLogs currentLogs = currentLogs.
Proof.
  intros Hall. rewrite addLogsUpdater_app, filteredNewLogs_nil by done.
  apply app_nil_r.
Qed.

(** Entries already in the transcript keep their place: the old
    transcript is a prefix of the new one. *)
Lemma addLogsUpdater_prefix newLogs currentLogs :
  currentLogs `prefix_of` addLogsUpdater newLogs currentLogs.
Proof. rewrite addLogsUpdater_app. by apply prefix_app_r. Qed.

(** A batch whose texts are pairwise distinct keeps a transcript free
    of repeated texts. *)
Lemma addLogsUpdater_NoDup newLogs currentLogs :
  NoDup (text <$> currentLogs) →
  NoDup (text <$> newLogs) →
  NoDup (text <$> addLogsUpdater newLogs currentLogs).
Proof.
  intros Hcur Hnew. rewrite addLogsUpdater_app, fmap_app.
  apply NoDup_app. split_and!; [done| |].
  - intros s Hs Hin. apply list_elem_of_fmap in Hin as (log & -> & Hlog).
    unfold filteredNewLogs in Hlog.
    apply list_elem_of_filter in Hlog as [Hfresh _].
    by apply Hfresh, elem_of_existingTexts.
  - unfold filteredNewLogs. clear Hcur.
    induction newLogs as [|log rest IH]; [constructor|].
    simpl in Hnew. apply NoDup_cons in Hnew as [Hhd Htl].
    destruct (decide (text log ∉ existingTexts currentLogs)) as [Hf|Hf].
    + rewrite filter_cons_True by done. simpl. apply NoDup_cons. split; [|by apply IH].
      intros Hin. apply Hhd.
      apply list_elem_of_fmap in Hin as (l & Heq & Hl).
      apply list_elem_of_filter in Hl as [_ Hl].
      apply list_elem_of_fmap. eauto.
    + rewrite filter_cons_False by done. by apply IH.
Qed.

(** Batches whose texts are pairwise distinct, appended one after the
    other to the empty transcript, never repeat a text. *)
Lemma appends_NoDup (batches : list (list LogMessage)) :
  Forall (λ batch, NoDup (text <$> batch)) batches →
  NoDup (text <$> foldl (λ logs batch, addLogsUpdater batch logs) [] batches).
Proof.
  assert (∀ logs, NoDup (text <$> logs) →
            Forall (λ batch, NoDup (text <$> batch)) batches →
            NoDup (text <$> foldl (λ logs batch, addLogsUpdater batch logs)
                              logs batches)) as Hgen.
  { induction batches as [|batch batches IH]; intros logs Hlogs Hall; [done|].
    apply Forall_cons in Hall as [Hbatch Hall]. simpl.
    apply IH; [by apply addLogsUpdater_NoDup|done]. }
  apply Hgen. constructor.
Qed.

(** C10: when every text of the batch is already in the transcript,
    [addLogs] leaves the state exactly as it was: the transcript is
    the same list (nothing added, removed or reordered), no scroll is
    scheduled, and the set of seen texts, which is computed from the
    transcript, is the same. *)
Theorem addLogs_all_present_unchanged (newLogs : list LogMessage)
    (st : Dashboard) :
  (∀ log, log ∈ newLogs → text log ∈ text <$> logMessages st) →
  addLogs newLogs st = st
  ∧ logMessages (addLogs newLogs st) = logMessages st
  ∧ existingTexts (logMessages (addLogs newLogs st))
    = existingTexts (logMessages st).
Proof.
  intros Hall.
  assert (addLogs newLogs st = st) as ->; [|done].
  unfold addLogs. rewrite filteredNewLogs_nil by done.
  case_decide as Hlen; [simpl in Hlen; lia | done].
Qed.

Lemma addLogs_all_present_unchanged_witness :
  addLogs [ {| type := server; text := "Upload complete. Processing..." |} ]
          demoProcessing
  = demoProcessing.
Proof.
  apply (addLogs_all_present_unchanged
           [ {| type := server; text := "Upload complete. Processing..." |} ]
           demoProcessing).
  intros log ->%list_elem_of_singleton. vm_compute. right. left.
Defined.

(** C2 at the failing input: a batch that carries the same text twice,
    handed to [addLogs] on the empty transcript. Both entries are
    appended, because the batch is filtered against the texts the
    transcript had before the call; the same happens to a poll result
    on a running job. *)
Theorem addLogs_keeps_duplicates_of_a_batch :
  addLogsUpdater [ {| type := info; text := "Parsing page 1" |};
                   {| type := success; text := "Parsing page 1" |} ] []
  = [ {| type := info; text := "Parsing page 1" |};
      {| type := success; text := "Parsing page 1" |} ]
  ∧ ¬ NoDup (text <$> addLogsUpdater
                        [ {| type := info; text := "Parsing page 1" |};
                          {| type := success; text := "Parsing page 1" |} ] [])
  ∧ logMessages
      (run [ IntervalFires 1;
             LogsSettle 0 (LogsResponse
               (Some [ {| type := server; text := "Parsing page 1" |};
                       {| type := server; text := "Parsing page 1" |} ])) ]
           demoProcessing)
    = [ {| type := info; text := "Uploading extrato.pdf to /api/ingest..." |};
        {| type := success; text := "Upload complete. Processing..." |};
        {| type := server; text := "Parsing page 1" |};
        {| type := server; text := "Parsing page 1" |} ].
Proof.
  assert (addLogsUpdater [ {| type := info; text := "Parsing page 1" |};
                           {| type := success; text := "Parsing page 1" |} ] []
          = [ {| type := info; text := "Parsing page 1" |};
              {| type := success; text := "Parsing page 1" |} ]) as Heq
    by (vm_compute; reflexivity).
  split_and!; [done| |by vm_compute].
  rewrite Heq. simpl. intros Hnodup. apply NoDup_cons in Hnodup as [Hnotin _].
  apply Hnotin. left.
Qed.

(** ** What handlers leave alone *)

Lemma addLogs_frame newLogs st : sameBut_logs st (addLogs newLogs st).
Proof. unfold addLogs, sameBut_logs. case_decide; simpl; by repeat split. Qed.

Lemma stopPolling_frame st : sameBut_timers st (stopPolling st).
Proof.
  unfold stopPolling, sameBut_timers.
  destruct (pollingIntervalRef st); simpl; by repeat split.
Qed.

Lemma pollingEffect_frame st : sameBut_timers st (pollingEffect st).
Proof.
  unfold pollingEffect.
  destruct (currentJobId st) as [| |jobId] eqn:Hjob;
    [by repeat split..|].
  destruct (truthyString jobId && isProcessing st); by repeat split.
Qed.

Lemma commit_frame prev next : sameBut_timers next (commit prev next).
Proof.
  unfold commit. case_decide.
  - unfold sameBut_timers. by repeat split.
  - pose proof (stopPolling_frame next) as H1.
    pose proof (pollingEffect_frame (stopPolling next)) as H2.
    unfold sameBut_timers in *. destruct_and!. split_and!; congruence.
Qed.

(** ** At most one interval timer *)

Lemma timersOf_addLogs newLogs st : timersOf (addLogs newLogs st) = timersOf st.
Proof.
  pose proof (addLogs_frame newLogs st) as H. unfold sameBut_logs in H.
  destruct_and!. unfold timersOf. congruence.
Qed.

Lemma pollerInvariant_tidy st : pollerInvariant st → tidy st.
Proof.
  unfold pollerInvariant, tidy. destruct (pollingIntervalRef st).
  - intros (jobId & ? & _). eauto.
  - by intros [? _].
Qed.

Lemma tidy_timersOf st st' : timersOf st' = timersOf st → tidy st → tidy st'.
Proof. unfold timersOf, tidy. by intros [= -> ->]. Qed.

Lemma stopPolling_clears st :
  tidy st → timersOf (stopPolling st) = (None, ∅).
Proof.
  unfold tidy, stopPolling, timersOf.
  destruct (pollingIntervalRef st) as [id|] eqn:Href; simpl.
  - intros (jobId & ->). by rewrite delete_singleton_eq.
  - intros ->. by rewrite Href.
Qed.

Lemma stopPolling_idle st :
  timersOf st = (None, ∅) → stopPolling st = st.
Proof. unfold timersOf, stopPolling. by intros [= -> _]. Qed.

Lemma timersOf_pollCatch e st :
  tidy st →
  timersOf (pollCatch e st) = (None, ∅) ∧ isProcessing (pollCatch e st) = false.
Proof.
  intros Htidy. unfold pollCatch. split; [|done].
  change (timersOf (setIsProcessing false ?s)) with (timersOf s).
  apply stopPolling_clears. eapply tidy_timersOf; [apply timersOf_addLogs|done].
Qed.

Lemma timersOf_pollSettled r st :
  tidy st →
  timersOf (pollSettled r st) = timersOf st
  ∨ timersOf (pollSettled r st) = (None, ∅)
    ∧ isProcessing (pollSettled r st) = false.
Proof.
  intros Htidy. destruct r as [e|statusText|e|[newLogs|]]; simpl;
    [right; by apply timersOf_pollCatch..| |by left].
  case_decide; [|by left].
  assert (tidy (addLogs newLogs st)) as Htidy'
    by (eapply tidy_timersOf; [apply timersOf_addLogs|done]).
  destruct (newLogs !! _) as [lastLog|].
  - destruct (isTerminalLog lastLog).
    + right. split; [|done].
      change (timersOf (setInternalFile None (setBankFile None
                (setIsProcessing false ?s)))) with (timersOf s).
      by apply stopPolling_clears.
    + left. apply timersOf_addLogs.
  - right. by apply timersOf_pollCatch.
Qed.

Lemma timersOf_uploadSettled r st :
  timersOf (uploadSettled r st) = timersOf st.
Proof.
  assert (∀ e, timersOf (uploadCatch e st) = timersOf st) as Hcatch.
  { intros e. unfold uploadCatch.
    change (timersOf (setInternalFile None (setBankFile None
              (setIsProcessing false ?s)))) with (timersOf s).
    apply timersOf_addLogs. }
  destruct r as [e|e|[] data]; simpl; [apply Hcatch..| |apply Hcatch].
  change (timersOf (setCurrentJobId ?j ?s)) with (timersOf s).
  apply timersOf_addLogs.
Qed.

Lemma timersOf_handleUpload file endpoint st :
  timersOf (handleUpload file endpoint st) = timersOf st.
Proof.
  destruct file as [f|]; unfold handleUpload; [|apply timersOf_addLogs].
  change (timersOf (fetch ?r ?s)) with (timersOf s).
  by rewrite timersOf_addLogs.
Qed.

Lemma timersOf_reportSettled r st :
  timersOf (reportSettled r st) = timersOf st.
Proof. by destruct r as [e|e|[] d data]. Qed.

Lemma timersOf_handleGenerateReport st :
  timersOf (handleGenerateReport st) = timersOf st.
Proof.
  unfold handleGenerateReport. by destruct (reportPeriod st) as [[y m]|].
Qed.

Lemma timersOf_handle e st :
  tidy st →
  timersOf (handle e st) = timersOf st
  ∨ timersOf (handle e st) = (None, ∅) ∧ isProcessing (handle e st) = false.
Proof.
  intros Htidy. destruct e; simpl.
  - left. destruct (isProcessing st); [done|]. by destruct selectedFile.
  - left. destruct (isProcessing st); [done|]. by destruct selectedFile.
  - left. destruct (uploadDisabled _ _); [done|apply timersOf_handleUpload].
  - left. destruct (uploadDisabled _ _); [done|apply timersOf_handleUpload].
  - by left.
  - by left.
  - left. apply timersOf_handleGenerateReport.
  - left. by destruct (intervals (browser st) !! id).
  - left. destruct (inflight (browser st) !! i) as [[]|]; [|done..].
    by rewrite timersOf_uploadSettled.
  - destruct (inflight (browser st) !! i) as [[]|]; [by left| |by left..].
    destruct (timersOf_pollSettled r (settle i st)) as [->|[-> ->]];
      [done|by left|by right].
  - left. destruct (inflight (browser st) !! i) as [[]|]; [done..| |done].
    by rewrite timersOf_reportSettled.
Qed.

Lemma pollingEffect_invariant st :
  timersOf st = (None, ∅) → pollerInvariant (pollingEffect st).
Proof.
  unfold timersOf. intros [= Href Hint]. unfold pollingEffect.
  destruct (currentJobId st) as [| |jobId] eqn:Hjob;
    [unfold pollerInvariant; by rewrite Href, Hjob..|].
  destruct (truthyString jobId) eqn:Htruthy, (isProcessing st) eqn:Hproc; simpl;
    [|unfold pollerInvariant; rewrite Href, Hjob, Hproc; simpl;
      by rewrite ?Htruthy, ?andb_false_r..].
  unfold pollerInvariant. simpl. exists jobId. by rewrite Hint.
Qed.

Lemma step_invariant e st :
  pollerInvariant st → pollerInvariant (step e st).
Proof.
  intros Hinv. pose proof (pollerInvariant_tidy _ Hinv) as Htidy.
  unfold step, commit.
  destruct (timersOf_handle e st Htidy) as [Hsame|Hnone].
  - case_decide as Hdeps.
    + destruct Hdeps as [Hjob Hproc].
      unfold timersOf in Hsame. injection Hsame as Href Hint.
      unfold pollerInvariant in *. rewrite Href, Hint, <- Hjob, <- Hproc. done.
    + apply pollingEffect_invariant, stopPolling_clears.
      by eapply tidy_timersOf.
  - destruct Hnone as [Hnone Hidle]. case_decide as Hdeps.
    + unfold timersOf in Hnone. injection Hnone as Href Hint.
      unfold pollerInvariant. by rewrite Href, Hidle, andb_false_r.
    + apply pollingEffect_invariant. by rewrite stopPolling_idle.
Qed.

Lemma reachable_invariant st : reachable st → pollerInvariant st.
Proof.
  induction 1 as [year month|e st _ IH]; [done|by apply step_invariant].
Qed.

Lemma reachable_run es st : reachable st → reachable (run es st).
Proof.
  revert st. induction es as [|e es IH]; intros st Hst; [done|].
  simpl. apply IH. by constructor.
Qed.

Lemma activePollers_invariant st : pollerInvariant st → activePollers st ≤ 1.
Proof.
  unfold pollerInvariant, activePollers.
  destruct (pollingIntervalRef st).
  - intros (jobId & -> & _). by rewrite map_size_singleton.
  - intros [-> _]. rewrite map_size_empty. lia.
Qed.

(** ** The render after a handler *)

Lemma commit_same_deps prev next :
  currentJobId prev = currentJobId next →
  isProcessing prev = isProcessing next →
  commit prev next = next.
Proof. intros Hjob Hproc. unfold commit. by rewrite decide_True. Qed.

Lemma commit_not_processing prev next :
  isProcessing next = false →
  pollerInvariant prev →
  timersOf next = timersOf prev ∨ timersOf next = (None, ∅) →
  timersOf (commit prev next) = (None, ∅)
  ∧ sameBut_timers next (commit prev next).
Proof.
  intros Hidle Hinv Htimers. split; [|apply commit_frame].
  assert (tidy next) as Htidy.
  { destruct Htimers as [Hsame|Hnone].
    - eapply tidy_timersOf; [done|by apply pollerInvariant_tidy].
    - unfold timersOf in Hnone. injection Hnone as Href Hint.
      unfold tidy. by rewrite Href. }
  assert (pollingEffect (stopPolling next) = stopPolling next) as Heffect.
  { unfold pollingEffect.
    destruct (stopPolling_frame next) as (_ & _ & Hproc & _).
    destruct (currentJobId _) as [| |jobId]; [done..|].
    by rewrite Hproc, Hidle, andb_false_r. }
  unfold commit. case_decide as Hdeps.
  - destruct Hdeps as [Hjob Hproc].
    destruct Htimers as [Hsame|Hnone]; [|done].
    rewrite Hsame. unfold pollerInvariant in Hinv. unfold timersOf.
    destruct (pollingIntervalRef prev) as [id|].
    + destruct Hinv as (jobId & _ & _ & _ & Hbusy). congruence.
    + by destruct Hinv as [-> _].
  - rewrite Heffect. by apply stopPolling_clears.
Qed.

(** ** Upload attempts while a job is active *)

Lemma busy_click_ignored st :
  isProcessing st = true →
  step ClickUploadBank st = st ∧ step ClickUploadInternal st = st.
Proof.
  intros Hbusy. unfold step, handle, uploadDisabled.
  rewrite Hbusy, !orb_true_r. by rewrite commit_same_deps.
Qed.

Lemma busy_pick_ignored st selectedFile :
  isProcessing st = true →
  step (PickBankFile selectedFile) st = st
  ∧ step (PickInternalFile selectedFile) st = st.
Proof.
  intros Hbusy. unfold step, handle. rewrite Hbusy.
  by rewrite commit_same_deps.
Qed.

(** C3, as the code has it: what guards a submit is the busy flag
    [isProcessing], not the uploads in flight. In every reachable
    state, and after any further events, at most one interval timer
    polls; a live timer implies the flag is set; and while the flag is
    set a click on either upload button, and a choice in either file
    button, leaves the whole state as it is: no request is issued and
    nothing is queued, so no second poller can start. *)
Theorem one_active_job (st : Dashboard) :
  reachable st →
  (∀ es, activePollers (run es st) ≤ 1)
  ∧ (0 < activePollers st → isProcessing st = true)
  ∧ (isProcessing st = true →
     step ClickUploadBank st = st
     ∧ step ClickUploadInternal st = st
     ∧ ∀ selectedFile,
         step (PickBankFile selectedFile) st = st
         ∧ step (PickInternalFile selectedFile) st = st).
Proof.
  intros Hreach. split_and!.
  - intros es. by apply activePollers_invariant, reachable_invariant,
      reachable_run.
  - pose proof (reachable_invariant _ Hreach) as Hinv.
    unfold pollerInvariant, activePollers in *.
    destruct (pollingIntervalRef st).
    + by destruct Hinv as (jobId & _ & _ & _ & Hbusy).
    + destruct Hinv as [-> _]. rewrite map_size_empty. lia.
  - intros Hbusy. destruct (busy_click_ignored st Hbusy) as [Hbank Hinternal].
    split_and!; [done..|]. intros selectedFile. by apply busy_pick_ignored.
Qed.

(** The flag is cleared by every terminal or failed poll result, also
    by one that belongs to an earlier job: with two log requests of
    job "abc" in flight, the second result arrives after the next
    upload has started and reopens the upload button while that
    upload is still in flight. There is still at most one poller. *)
Example stale_poll_result_reopens_submit :
  let finished :=
    LogsResponse (Some [ {| type := success; text := "Job abc finished" |} ]) in
  let st := run [ IntervalFires 1; IntervalFires 1; LogsSettle 0 finished;
                  PickBankFile (Some {| name := "b.pdf" |}); ClickUploadBank;
                  LogsSettle 0 finished ] demoProcessing in
  isProcessing st = false
  ∧ inflight (browser st) = [PostFile "/api/ingest" {| name := "b.pdf" |}]
  ∧ activePollers st = 0.
Proof. by vm_compute. Qed.

Lemma one_active_job_witness :
  reachable demoProcessing
  ∧ isProcessing demoProcessing = true
  ∧ activePollers (run [ClickUploadBank; ClickUploadInternal] demoProcessing) ≤ 1
  ∧ step ClickUploadBank demoProcessing = demoProcessing.
Proof.
  assert (reachable demoProcessing) as Hreach
    by (apply reachable_run, reachable_init).
  assert (isProcessing demoProcessing = true) as Hbusy
    by (vm_compute; reflexivity).
  destruct (one_active_job demoProcessing Hreach) as (Hpollers & _ & Hignored).
  destruct (Hignored Hbusy) as (Hclick & _).
  split_and!; [exact Hreach|exact Hbusy|exact (Hpollers _)|exact Hclick].
Defined.

(** C3, as stated, fails: with the upload of b.pdf still in flight,
    a late failure of a log request of the job before it has cleared
    the busy flag; the click on the upload button is accepted and a
    second upload is in flight beside the first. *)
Lemma second_upload_beside_a_pending_one :
  reachable demoPendingUpload
  ∧ inflight (browser demoPendingUpload)
    = [PostFile "/api/ingest" {| name := "b.pdf" |}]
  ∧ isProcessing demoPendingUpload = false
  ∧ inflight (browser (step ClickUploadBank demoPendingUpload))
    = [ PostFile "/api/ingest" {| name := "b.pdf" |};
        PostFile "/api/ingest" {| name := "b.pdf" |} ]
  ∧ step ClickUploadBank demoPendingUpload ≠ demoPendingUpload.
Proof.
  assert (inflight (browser (step ClickUploadBank demoPendingUpload))
          = [ PostFile "/api/ingest" {| name := "b.pdf" |};
              PostFile "/api/ingest" {| name := "b.pdf" |} ]) as Htwo
    by (vm_compute; reflexivity).
  assert (inflight (browser demoPendingUpload)
          = [PostFile "/api/ingest" {| name := "b.pdf" |}]) as Hone
    by (vm_compute; reflexivity).
  split_and!; [|done|by vm_compute|done|].
  - apply reachable_run, reachable_run, reachable_init.
  - intros Heq. rewrite Heq, Hone in Htwo. discriminate Htwo.
Qed.

(** ** Ticks of the interval timer *)

Lemma pollsInFlight_fetch jobId st :
  pollsInFlight jobId (fetch (GetLogs jobId) st) = S (pollsInFlight jobId st).
Proof.
  unfold pollsInFlight. simpl. rewrite filter_app, length_app.
  rewrite filter_cons_True by done. simpl. lia.
Qed.

Lemma step_tick st id jobId :
  intervals (browser st) !! id = Some jobId →
  step (IntervalFires id) st = fetch (GetLogs jobId) st.
Proof.
  intros Hlive. unfold step, handle. rewrite Hlive.
  by rewrite commit_same_deps.
Qed.

(** C4, as the code has it: a tick of a live interval timer issues a
    new log request for the job the timer polls, whatever is already
    in flight; no tick is skipped and nothing is held back. After [n]
    ticks with no response in between, [n] more requests for the same
    job are in flight at once. *)
Theorem tick_fetches_unconditionally (st : Dashboard) (id : positive)
    (jobId : string) :
  intervals (browser st) !! id = Some jobId →
  step (IntervalFires id) st = fetch (GetLogs jobId) st
  ∧ inflight (browser (step (IntervalFires id) st))
    = inflight (browser st) ++ [GetLogs jobId]
  ∧ ∀ n, pollsInFlight jobId (run (replicate n (IntervalFires id)) st)
         = n + pollsInFlight jobId st.
Proof.
  intros Hlive. split_and!.
  - by apply step_tick.
  - by rewrite (step_tick _ _ jobId).
  - intros n. revert st Hlive. induction n as [|n IH]; intros st Hlive; [done|].
    simpl. rewrite IH.
    + rewrite (step_tick _ _ jobId) by done. rewrite pollsInFlight_fetch. lia.
    + by rewrite (step_tick _ _ jobId).
Qed.

Lemma tick_fetches_unconditionally_witness :
  intervals (browser demoProcessing) !! 1%positive = Some "abc"
  ∧ pollsInFlight "abc" (run (replicate 3 (IntervalFires 1)) demoProcessing)
    = 3 + pollsInFlight "abc" demoProcessing.
Proof.
  assert (intervals (browser demoProcessing) !! 1%positive = Some "abc")
    as Hlive by (vm_compute; reflexivity).
  split; [exact Hlive|].
  exact (proj2 (proj2 (tick_fetches_unconditionally demoProcessing 1 "abc" Hlive)) 3).
Defined.

(** C4, as stated, fails: after an upload that returned job id
    ["abc"], two ticks of the timer with no response in between leave
    two log requests for ["abc"] in flight. *)
Lemma overlapping_polls_in_flight :
  reachable (run [IntervalFires 1; IntervalFires 1] demoProcessing)
  ∧ inflight (browser (run [IntervalFires 1; IntervalFires 1] demoProcessing))
    = [GetLogs "abc"; GetLogs "abc"]
  ∧ ¬ (∀ st jobId, reachable st → pollsInFlight jobId st ≤ 1).
Proof.
  assert (reachable (run [IntervalFires 1; IntervalFires 1] demoProcessing))
    as Hreach by (do 2 apply reachable_run; apply reachable_init).
  split_and!; [done|by vm_compute|].
  intros Hno. specialize (Hno _ "abc" Hreach). vm_compute in Hno. lia.
Qed.

(** ** Submitting a file *)

(** C8: [handleUpload] called without a file does nothing but hand one
    error entry, "No file selected to upload.", to [addLogs]: no
    request is issued, and the processing flag, the job id, both file
    selections, the poller and the report panel are as before; the
    render that follows starts nothing. *)
Theorem handleUpload_without_file (endpoint : string) (st : Dashboard) :
  handleUpload None endpoint st
  = addLogs [ {| type := error; text := "No file selected to upload." |} ] st
  ∧ logMessages (handleUpload None endpoint st)
    = addLogsUpdater
        [ {| type := error; text := "No file selected to upload." |} ]
        (logMessages st)
  ∧ inflight (browser (handleUpload None endpoint st)) = inflight (browser st)
  ∧ isProcessing (handleUpload None endpoint st) = isProcessing st
  ∧ currentJobId (handleUpload None endpoint st) = currentJobId st
  ∧ sameBut_logs st (handleUpload None endpoint st)
  ∧ commit st (handleUpload None endpoint st) = handleUpload None endpoint st.
Proof.
  unfold handleUpload.
  pose proof (addLogs_frame
    [ {| type := error; text := "No file selected to upload." |} ] st) as Hframe.
  pose proof Hframe as (_ & _ & Hproc & Hjob & _ & _ & _ & _ & Hreq & _).
  split_and!; [done|apply logMessages_addLogs|done..|].
  by apply commit_same_deps.
Qed.

Lemma uploadSettled_fails r msg st :
  uploadFails r msg →
  ∃ e, uploadSettled r st = uploadCatch e st ∧ errorMessage e = msg.
Proof. destruct 1; eauto. Qed.

Lemma uploadCatch_frame e st :
  let st' := uploadCatch e st in
  logMessages st'
  = addLogsUpdater
      [ {| type := error; text := "Upload failed: " +:+ errorMessage e |} ]
      (logMessages st)
  ∧ isProcessing st' = false ∧ bankFile st' = None ∧ internalFile st' = None
  ∧ currentJobId st' = currentJobId st
  ∧ inflight (browser st') = inflight (browser st)
  ∧ timersOf st' = timersOf st.
Proof.
  set (entry := {| type := error;
                   text := "Upload failed: " +:+ errorMessage e |}).
  pose proof (addLogs_frame [entry] st)
    as (_ & _ & _ & Hjob & _ & _ & _ & _ & Hreq & _).
  unfold uploadCatch. fold entry. simpl.
  split_and!; [apply logMessages_addLogs|done..|].
  change (timersOf (setInternalFile None (setBankFile None
            (setIsProcessing false ?s)))) with (timersOf s).
  apply timersOf_addLogs.
Qed.

Lemma append_String c s t : String c s +:+ t = String c (s +:+ t).
Proof. reflexivity. Qed.

Lemma upload_failed_not_uploading msg rest :
  "Upload failed: " +:+ msg ≠ "Uploading " +:+ rest.
Proof. rewrite !append_String. intros Heq. discriminate Heq. Qed.

(** C6: when the upload request fails (the [fetch] rejects, the body
    is not JSON, or the status is not ok), the [catch] block hands one
    error entry "Upload failed: <message>" to [addLogs], clears the
    processing flag and both file selections, and no poller runs
    afterwards. The transcript then carries that line: appended at the
    end when its text was not there, and left as it is when the text
    was there already; straight after a submit, whose transcript is
    the single "Uploading ..." line, it is always appended. For a
    response that is not ok the message is the server's:
    [detail.message] or the string [detail] when present (non-empty),
    and "Upload failed" when the body has no [detail]. *)
Theorem upload_failure_returns_to_idle (st : Dashboard) (i : nat)
    (endpoint : string) (file : File) (r : UploadFetch) (msg : string) :
  reachable st →
  inflight (browser st) !! i = Some (PostFile endpoint file) →
  uploadFails r msg →
  let st' := step (UploadSettles i r) st in
  let entry := {| type := error; text := "Upload failed: " +:+ msg |} in
  logMessages st' = addLogsUpdater [entry] (logMessages st)
  ∧ isProcessing st' = false
  ∧ bankFile st' = None ∧ internalFile st' = None
  ∧ pollingIntervalRef st' = None ∧ activePollers st' = 0
  ∧ inflight (browser st') = delete i (inflight (browser st))
  ∧ (∀ s, s ≠ "" → uploadFailureMessage (DetailString s) = s)
  ∧ (∀ m, m ≠ "" → uploadFailureMessage (DetailObject (Some m)) = m)
  ∧ uploadFailureMessage DetailAbsent = "Upload failed"
  ∧ text entry ∈ text <$> logMessages st'
  ∧ (text entry ∉ text <$> logMessages st →
     logMessages st' = logMessages st ++ [entry])
  ∧ (text entry ∈ text <$> logMessages st →
     logMessages st' = logMessages st)
  ∧ (∀ f to,
       logMessages st
       = [ {| type := info;
              text := "Uploading " +:+ name f +:+ " to " +:+ to +:+ "..." |} ] →
       logMessages st'
       = [ {| type := info;
              text := "Uploading " +:+ name f +:+ " to " +:+ to +:+ "..." |};
           entry ]).
Proof.
  intros Hreach Hreq Hfails st' entry.
  assert (∀ s, s ≠ "" → truthyString s = true) as Htruthy
    by (intros s Hs; by apply bool_decide_eq_true).
  assert (st' = commit st (uploadSettled r (settle i st))) as Hst'
    by (unfold st', step, handle; by rewrite Hreq).
  destruct (uploadSettled_fails r msg (settle i st) Hfails) as (e & Hcatch & Hmsg).
  rewrite Hcatch in Hst'.
  destruct (uploadCatch_frame e (settle i st))
    as (Hlogs & Hproc & Hbank & Hinternal & _ & Hinflight & Htimers).
  destruct (commit_not_processing st (uploadCatch e (settle i st)))
    as (Hnone & Hframe); [done|by apply reachable_invariant|by left|].
  rewrite <- Hst' in Hnone, Hframe.
  destruct Hframe as (Hb & Hi & Hp & _ & Hl & _ & Hr & _).
  unfold timersOf in Hnone. injection Hnone as Href Hint.
  assert (logMessages st' = addLogsUpdater [entry] (logMessages st)) as Hlogs'
    by (unfold entry; by rewrite Hl, Hlogs, Hmsg).
  assert (text entry ∉ text <$> logMessages st →
          logMessages st' = logMessages st ++ [entry]) as Hfresh
    by (intros Hnew; rewrite Hlogs'; by apply addLogsUpdater_fresh).
  assert (text entry ∈ text <$> logMessages st →
          logMessages st' = logMessages st) as Hseen.
  { intros Hold. rewrite Hlogs'. apply addLogsUpdater_present.
    by intros log ->%list_elem_of_singleton. }
  split_and!.
  - done.
  - congruence.
  - congruence.
  - congruence.
  - done.
  - unfold activePollers. by rewrite Hint, map_size_empty.
  - by rewrite Hr, Hinflight.
  - intros s Hs. simpl. by rewrite Htruthy.
  - intros m Hm. simpl. by rewrite Htruthy.
  - done.
  - destruct (decide (text entry ∈ text <$> logMessages st)) as [Hold|Hnew].
    + by rewrite Hseen.
    + rewrite Hfresh, fmap_app, elem_of_app by done. right. simpl. left.
  - done.
  - done.
  - intros f to Hsubmit. rewrite Hfresh; [by rewrite Hsubmit|].
    rewrite Hsubmit. simpl. intros Hin%list_elem_of_singleton.
    by apply upload_failed_not_uploading in Hin.
Qed.

Lemma upload_failure_returns_to_idle_witness :
  isProcessing
    (step (UploadSettles 0 (UploadResponse false
             {| detail := DetailObject (Some "Unsupported file");
                job_id := None |})) demoUploading) = false
  ∧ logMessages
      (step (UploadSettles 0 (UploadResponse false
               {| detail := DetailObject (Some "Unsupported file");
                  job_id := None |})) demoUploading)
    = [ {| type := info; text := "Uploading extrato.pdf to /api/ingest..." |};
        {| type := error; text := "Upload failed: Unsupported file" |} ].
Proof.
  assert (reachable demoUploading) as Hreach
    by (apply reachable_run, reachable_init).
  assert (inflight (browser demoUploading) !! 0
          = Some (PostFile "/api/ingest" demoFile)) as Hreq
    by (vm_compute; reflexivity).
  assert (logMessages demoUploading
          = [ {| type := info;
                 text := "Uploading " +:+ name demoFile +:+ " to "
                         +:+ "/api/ingest" +:+ "..." |} ]) as Hsubmit
    by (vm_compute; reflexivity).
  pose proof (upload_failure_returns_to_idle demoUploading 0 _ _ _ _ Hreach Hreq
                (uploadFails_status
                   {| detail := DetailObject (Some "Unsupported file");
                      job_id := None |}))
    as (_ & Hidle & _ & _ & _ & _ & _ & _ & _ & _ & _ & _ & _ & Hflow).
  exact (conj Hidle (Hflow demoFile "/api/ingest" Hsubmit)).
Defined.

Lemma uploadSettled_ok_frame data st :
  let st' := uploadSettled (UploadResponse true data) st in
  logMessages st'
  = addLogsUpdater
      [ {| type := success; text := "Upload complete. Processing..." |} ]
      (logMessages st)
  ∧ currentJobId st' = jobIdOf data
  ∧ isProcessing st' = isProcessing st
  ∧ bankFile st' = bankFile st ∧ internalFile st' = internalFile st
  ∧ inflight (browser st') = inflight (browser st).
Proof.
  set (entry := {| type := success; text := "Upload complete. Processing..." |}).
  pose proof (addLogs_frame [entry] st)
    as (Hb & Hi & Hp & _ & _ & _ & _ & _ & Hreq & _).
  simpl. fold entry. split_and!; [apply logMessages_addLogs|done..].
Qed.

Lemma processing_has_poller st jobId :
  pollerInvariant st →
  currentJobId st = jobString jobId → jobId ≠ "" → isProcessing st = true →
  ∃ id, pollingIntervalRef st = Some id
        ∧ intervals (browser st) = {[ id := jobId ]}.
Proof.
  unfold pollerInvariant. intros Hinv Hjob Hne Hbusy.
  destruct (pollingIntervalRef st) as [id|].
  - destruct Hinv as (jobId' & Hint & Hjob' & _). exists id.
    split; [done|]. congruence.
  - destruct Hinv as [_ Hidle]. rewrite Hjob, Hbusy in Hidle. simpl in Hidle.
    rewrite andb_true_r in Hidle. by apply bool_decide_eq_false in Hidle.
Qed.

(** On a response that is ok, [handleUpload] appends the success entry
    and stores the body's [job_id] as the current job id; when that is
    a non-empty string and the component is processing, the render
    that follows has the one poller running for it. *)
Lemma upload_success_starts_poller st i endpoint file data jobId :
  reachable st →
  inflight (browser st) !! i = Some (PostFile endpoint file) →
  isProcessing st = true →
  job_id data = Some jobId → jobId ≠ "" →
  let st' := step (UploadSettles i (UploadResponse true data)) st in
  currentJobId st' = jobString jobId
  ∧ isProcessing st' = true
  ∧ logMessages st'
    = addLogsUpdater
        [ {| type := success; text := "Upload complete. Processing..." |} ]
        (logMessages st)
  ∧ ∃ id, pollingIntervalRef st' = Some id
          ∧ intervals (browser st') = {[ id := jobId ]}.
Proof.
  intros Hreach Hreq Hbusy Hfield Hne st'.
  assert (reachable st') as Hreach' by by constructor.
  assert (st' = commit st (uploadSettled (UploadResponse true data) (settle i st)))
    as Hst' by (unfold st', step, handle; by rewrite Hreq).
  destruct (uploadSettled_ok_frame data (settle i st))
    as (Hlogs & Hjob & Hproc & _).
  unfold jobIdOf in Hjob. rewrite Hfield in Hjob.
  set (next := uploadSettled (UploadResponse true data) (settle i st)) in *.
  destruct (commit_frame st next) as (_ & _ & Hp & Hj & Hl & _).
  rewrite <- Hst' in Hp, Hj, Hl.
  assert (currentJobId st' = jobString jobId) as Hjob' by congruence.
  assert (isProcessing st' = true) as Hbusy' by (rewrite Hp, Hproc; done).
  split_and!; [done|done|by rewrite Hl, Hlogs|].
  by apply processing_has_poller; [apply reachable_invariant|..].
Qed.

Lemma stuck_without_poller st :
  isProcessing st = true →
  intervals (browser st) = ∅ →
  inflight (browser st) = [] →
  ∀ e, touchesReport e = false → step e st = st.
Proof.
  intros Hbusy Hint Hreq e He. unfold step.
  assert (handle e st = st) as ->; [|by apply commit_same_deps].
  destruct e; try discriminate He; unfold handle, uploadDisabled.
  - by rewrite Hbusy.
  - by rewrite Hbusy.
  - by rewrite Hbusy, orb_true_r.
  - by rewrite Hbusy, orb_true_r.
  - by rewrite Hint, lookup_empty.
  - by rewrite Hreq.
  - by rewrite Hreq.
Qed.

(** C7 at the failing input: an upload answered 200 with a body that
    has no [job_id]. Nothing fails: the success entry is appended, the
    job id becomes [undefined], the processing flag stays set, the
    file stays selected, no poller runs and no request is in flight;
    from then on every click on an upload or file button is ignored,
    and no timer or response can arrive. *)
Theorem upload_ok_without_job_id :
  logMessages demoNoJobId
  = [ {| type := info; text := "Uploading extrato.pdf to /api/ingest..." |};
      {| type := success; text := "Upload complete. Processing..." |} ]
  ∧ currentJobId demoNoJobId = undefined
  ∧ isProcessing demoNoJobId = true
  ∧ bankFile demoNoJobId = Some demoFile
  ∧ activePollers demoNoJobId = 0
  ∧ inflight (browser demoNoJobId) = []
  ∧ reachable demoNoJobId
  ∧ ∀ e, touchesReport e = false → step e demoNoJobId = demoNoJobId.
Proof.
  split_and!; [by vm_compute..| |].
  - apply reachable_step, reachable_run, reachable_init.
  - apply stuck_without_poller; by vm_compute.
Qed.

(** ** Poll results *)

Lemma last_index (newLogs : list LogMessage) :
  newLogs !! (length newLogs - 1) = last newLogs.
Proof. by rewrite last_lookup, Nat.sub_1_r. Qed.

Lemma isTerminalLog_spec lastLog :
  isTerminalLog lastLog = true
  ↔ (type lastLog = success ∨ type lastLog = error)
    ∧ includes "Job" (text lastLog) = true.
Proof.
  unfold isTerminalLog.
  rewrite andb_true_iff, orb_true_iff, !bool_decide_eq_true. done.
Qed.

(** The interval callback on a batch that is not empty. *)
Lemma pollSettled_batch newLogs lastLog st :
  last newLogs = Some lastLog →
  pollSettled (LogsResponse (Some newLogs)) st
  = if isTerminalLog lastLog
    then setInternalFile None (setBankFile None (setIsProcessing false
           (stopPolling (addLogs newLogs st))))
    else addLogs newLogs st.
Proof.
  intros Hlast. unfold pollSettled. rewrite last_index, Hlast.
  rewrite decide_True; [done|].
  destruct newLogs; [done|simpl; lia].
Qed.

(** C1, as the code has it: after a batch that is not empty has been
    handed to [addLogs], only its last entry decides. When that
    entry's kind is success or error and its text contains "Job", the
    timer is cleared, the processing flag is reset and both file
    selections are cleared, by the same update for either kind; no
    Completed or Failed status is kept. Otherwise nothing but the
    transcript changes: the flag, the job id and the timer stay, so
    polling goes on. *)
Theorem poll_batch_outcome (st : Dashboard) (i : nat) (jobId : string)
    (newLogs : list LogMessage) (lastLog : LogMessage) :
  reachable st →
  inflight (browser st) !! i = Some (GetLogs jobId) →
  last newLogs = Some lastLog →
  let st' := step (LogsSettle i (LogsResponse (Some newLogs))) st in
  logMessages st' = addLogsUpdater newLogs (logMessages st)
  ∧ (isTerminalLog lastLog = true
     ↔ (type lastLog = success ∨ type lastLog = error)
       ∧ includes "Job" (text lastLog) = true)
  ∧ (isTerminalLog lastLog = true →
     st' = commit st
             (setInternalFile None (setBankFile None (setIsProcessing false
                (stopPolling (addLogs newLogs (settle i st))))))
     ∧ isProcessing st' = false
     ∧ bankFile st' = None ∧ internalFile st' = None
     ∧ pollingIntervalRef st' = None ∧ activePollers st' = 0)
  ∧ (isTerminalLog lastLog = false →
     st' = addLogs newLogs (settle i st)
     ∧ isProcessing st' = isProcessing st
     ∧ currentJobId st' = currentJobId st
     ∧ timersOf st' = timersOf st).
Proof.
  intros Hreach Hreq Hlast st'.
  pose proof (reachable_invariant _ Hreach) as Hinv.
  assert (st' = commit st (pollSettled (LogsResponse (Some newLogs)) (settle i st)))
    as Hst' by (unfold st', step, handle; by rewrite Hreq).
  rewrite (pollSettled_batch _ lastLog) in Hst' by done.
  pose proof (addLogs_frame newLogs (settle i st))
    as (Hb & Hi & Hp & Hj & _ & Href & Hint & _).
  assert (timersOf (addLogs newLogs (settle i st)) = timersOf st) as Htimers
    by by rewrite timersOf_addLogs.
  split_and!.
  - destruct (commit_frame st
      (if isTerminalLog lastLog
       then setInternalFile None (setBankFile None (setIsProcessing false
              (stopPolling (addLogs newLogs (settle i st)))))
       else addLogs newLogs (settle i st))) as (_ & _ & _ & _ & Hl & _).
    rewrite <- Hst' in Hl. rewrite Hl.
    destruct (isTerminalLog lastLog); simpl.
    + destruct (stopPolling_frame (addLogs newLogs (settle i st)))
        as (_ & _ & _ & _ & -> & _).
      by rewrite logMessages_addLogs.
    + by rewrite logMessages_addLogs.
  - apply isTerminalLog_spec.
  - intros Hterminal. rewrite Hterminal in Hst'. split; [done|].
    set (next := setInternalFile None (setBankFile None (setIsProcessing false
                   (stopPolling (addLogs newLogs (settle i st)))))) in *.
    destruct (commit_not_processing st next) as (Hnone & Hframe);
      [done|done| |].
    { right. subst next.
      change (timersOf (setInternalFile None (setBankFile None
                (setIsProcessing false ?s)))) with (timersOf s).
      apply stopPolling_clears. eapply tidy_timersOf; [done|].
      by apply pollerInvariant_tidy. }
    rewrite <- Hst' in Hnone, Hframe.
    destruct Hframe as (Hb' & Hi' & Hp' & _).
    unfold timersOf in Hnone. injection Hnone as Href' Hint'.
    split_and!; [by rewrite Hp'|by rewrite Hb'|by rewrite Hi'|done|].
    unfold activePollers. by rewrite Hint', map_size_empty.
  - intros Hgoes. rewrite Hgoes in Hst'.
    rewrite commit_same_deps in Hst' by done.
    rewrite Hst'. by split_and!.
Qed.

(** C1, as stated, fails: a batch ending in a success entry and a
    batch ending in an error entry, both terminal, leave the component
    in one and the same state, so nothing in it tells a completed job
    from a failed one. *)
Lemma terminal_kind_not_reported :
  reachable demoSeen
  ∧ inflight (browser demoSeen) !! 0 = Some (GetLogs "abc")
  ∧ isTerminalLog {| type := success; text := "Job 42 done" |} = true
  ∧ isTerminalLog {| type := error; text := "Job 42 done" |} = true
  ∧ step (LogsSettle 0 (LogsResponse
            (Some [ {| type := success; text := "Job 42 done" |} ]))) demoSeen
    = step (LogsSettle 0 (LogsResponse
              (Some [ {| type := error; text := "Job 42 done" |} ]))) demoSeen
  ∧ isProcessing
      (step (LogsSettle 0 (LogsResponse
               (Some [ {| type := error; text := "Job 42 done" |} ]))) demoSeen)
    = false.
Proof.
  split_and!; [|by vm_compute..].
  do 2 apply reachable_run. apply reachable_init.
Qed.

Lemma poll_batch_outcome_witness :
  logMessages
    (step (LogsSettle 0 (LogsResponse
             (Some [ {| type := success; text := "Job abc finished" |} ])))
          demoSeen)
  = addLogsUpdater [ {| type := success; text := "Job abc finished" |} ]
                   (logMessages demoSeen).
Proof.
  assert (reachable demoSeen) as Hreach
    by (do 2 apply reachable_run; apply reachable_init).
  assert (inflight (browser demoSeen) !! 0 = Some (GetLogs "abc")) as Hreq
    by (vm_compute; reflexivity).
  assert (last [ {| type := success; text := "Job abc finished" |} ]
          = Some {| type := success; text := "Job abc finished" |}) as Hlast
    by reflexivity.
  exact (proj1 (poll_batch_outcome demoSeen 0 "abc" _ _ Hreach Hreq Hlast)).
Defined.

Lemma pollSettled_fails r msg st :
  pollFails r msg →
  ∃ e, pollSettled r st = pollCatch e st ∧ errorMessage e = msg.
Proof. destruct 1; eauto. Qed.

(** C5, as the code has it: when a log request fails (the [fetch]
    rejects, the status is not ok, or the body is not JSON), the
    [catch] block hands exactly one error entry, "Failed to fetch
    logs: <message>", to [addLogs], which appends it unless that text
    is already in the transcript; the timer is cleared and the
    processing flag reset; no request is issued in place of the failed
    one. The file selections stay. *)
Theorem poll_failure_stops_polling (st : Dashboard) (i : nat)
    (jobId : string) (r : LogsFetch) (msg : string) :
  reachable st →
  inflight (browser st) !! i = Some (GetLogs jobId) →
  pollFails r msg →
  let st' := step (LogsSettle i r) st in
  let entry := {| type := error; text := "Failed to fetch logs: " +:+ msg |} in
  logMessages st' = addLogsUpdater [entry] (logMessages st)
  ∧ (text entry ∉ text <$> logMessages st →
     logMessages st' = logMessages st ++ [entry])
  ∧ (text entry ∈ text <$> logMessages st →
     logMessages st' = logMessages st)
  ∧ isProcessing st' = false
  ∧ pollingIntervalRef st' = None ∧ activePollers st' = 0
  ∧ inflight (browser st') = delete i (inflight (browser st))
  ∧ bankFile st' = bankFile st ∧ internalFile st' = internalFile st.
Proof.
  intros Hreach Hreq Hfails st' entry.
  pose proof (reachable_invariant _ Hreach) as Hinv.
  assert (st' = commit st (pollSettled r (settle i st))) as Hst'
    by (unfold st', step, handle; by rewrite Hreq).
  destruct (pollSettled_fails r msg (settle i st) Hfails) as (e & Hcatch & Hmsg).
  rewrite Hcatch in Hst'.
  assert (tidy (settle i st)) as Htidy by by apply pollerInvariant_tidy.
  destruct (timersOf_pollCatch e (settle i st) Htidy) as [Hcleared Hidle].
  destruct (commit_not_processing st (pollCatch e (settle i st)))
    as (Hnone & Hframe); [done|done|by right|].
  rewrite <- Hst' in Hnone, Hframe.
  destruct Hframe as (Hb & Hi & Hp & _ & Hl & _ & Hr & _).
  unfold timersOf in Hnone. injection Hnone as Href Hint.
  assert (logMessages st' = addLogsUpdater [entry] (logMessages st)) as Hlogs.
  { rewrite Hl. unfold pollCatch, entry. rewrite Hmsg. simpl.
    destruct (stopPolling_frame
      (addLogs [ {| type := error; text := "Failed to fetch logs: " +:+ msg |} ]
         (settle i st))) as (_ & _ & _ & _ & -> & _).
    by rewrite logMessages_addLogs. }
  assert (sameBut_timers (addLogs [ {| type := error;
            text := "Failed to fetch logs: " +:+ errorMessage e |} ] (settle i st))
          (stopPolling (addLogs [ {| type := error;
            text := "Failed to fetch logs: " +:+ errorMessage e |} ] (settle i st))))
    as (Hb1 & Hi1 & _ & _ & _ & _ & Hr1 & _) by apply stopPolling_frame.
  pose proof (addLogs_frame [ {| type := error;
            text := "Failed to fetch logs: " +:+ errorMessage e |} ] (settle i st))
    as (Hb2 & Hi2 & _ & _ & _ & _ & _ & _ & Hr2 & _).
  split_and!.
  - done.
  - intros Hfresh. rewrite Hlogs. by apply addLogsUpdater_fresh.
  - intros Hseen. rewrite Hlogs. apply addLogsUpdater_present.
    by intros log ->%list_elem_of_singleton.
  - by rewrite Hp.
  - done.
  - unfold activePollers. by rewrite Hint, map_size_empty.
  - rewrite Hr. unfold pollCatch. simpl. by rewrite Hr1, Hr2.
  - rewrite Hb. unfold pollCatch. simpl. by rewrite Hb1, Hb2.
  - rewrite Hi. unfold pollCatch. simpl. by rewrite Hi1, Hi2.
Qed.

(** C5, as stated, fails: the second of two overlapping requests
    fails like the first, and no entry is appended for it. *)
Lemma second_poll_failure_appends_nothing :
  reachable demoFirstFailure
  ∧ inflight (browser demoFirstFailure) !! 0 = Some (GetLogs "abc")
  ∧ logMessages demoFirstFailure
    = [ {| type := info; text := "Uploading extrato.pdf to /api/ingest..." |};
        {| type := success; text := "Upload complete. Processing..." |};
        {| type := error;
           text := "Failed to fetch logs: Server error: Bad Gateway" |} ]
  ∧ logMessages (step (LogsSettle 0 (LogsNotOk "Bad Gateway")) demoFirstFailure)
    = logMessages demoFirstFailure.
Proof.
  split_and!; [|by vm_compute..].
  do 2 apply reachable_run. apply reachable_init.
Qed.

Lemma poll_failure_stops_polling_witness :
  isProcessing (step (LogsSettle 0 (LogsNotOk "Bad Gateway")) demoSeen) = false
  ∧ activePollers (step (LogsSettle 0 (LogsNotOk "Bad Gateway")) demoSeen) = 0.
Proof.
  assert (reachable demoSeen) as Hreach
    by (do 2 apply reachable_run; apply reachable_init).
  assert (inflight (browser demoSeen) !! 0 = Some (GetLogs "abc")) as Hreq
    by (vm_compute; reflexivity).
  pose proof (poll_failure_stops_polling demoSeen 0 "abc" _ _ Hreach Hreq
                (pollFails_status "Bad Gateway"))
    as (_ & _ & _ & Hidle & _ & Hnone & _).
  exact (conj Hidle Hnone).
Defined.

(** ** The report query *)

Lemma reportPeriod_selected st y m :
  reportYear (reportPanel st) = Some y →
  reportMonth (reportPanel st) = Some m →
  y ≠ "" → m ≠ "" →
  reportPeriod st = Some (y, m).
Proof.
  intros Hy Hm Hyne Hmne. unfold reportPeriod, truthyString.
  rewrite Hy, Hm, !bool_decide_eq_true_2; done.
Qed.

(** [handleGenerateReport] itself tests only that a year and a month
    are selected. When both are (non-empty strings)
    it issues the GET request with exactly those two values, whatever
    they are, and shows no alert; when one is missing it alerts
    "Please select a year and month." and issues no request. *)
Theorem report_period_only_checked_for_presence (st : Dashboard) :
  (∀ y m,
     reportYear (reportPanel st) = Some y →
     reportMonth (reportPanel st) = Some m →
     y ≠ "" → m ≠ "" →
     inflight (browser (step ClickGenerateReport st))
     = inflight (browser st) ++ [GetMonthlyDre y m]
     ∧ alerts (browser (step ClickGenerateReport st)) = alerts (browser st))
  ∧ (reportPeriod st = None →
     step ClickGenerateReport st = alert "Please select a year and month." st
     ∧ inflight (browser (step ClickGenerateReport st)) = inflight (browser st)).
Proof.
  split.
  - intros y m Hy Hm Hyne Hmne.
    unfold step, handle, handleGenerateReport.
    rewrite (reportPeriod_selected st y m) by done.
    by rewrite commit_same_deps.
  - intros Hnone. unfold step, handle, handleGenerateReport. rewrite Hnone.
    by rewrite commit_same_deps.
Qed.

Lemma report_period_only_checked_for_presence_witness :
  inflight (browser (step ClickGenerateReport (initialDashboard "2025" "11")))
  = [GetMonthlyDre "2025" "11"].
Proof.
  exact (proj1 (proj1 (report_period_only_checked_for_presence
                         (initialDashboard "2025" "11"))
                  "2025" "11" eq_refl eq_refl
                  ltac:(discriminate) ltac:(discriminate))).
Defined.

(** Handed a month that is none of the options, which no choice on
    the page produces, the handler would send it as it is. *)
Lemma month_13_is_requested :
  reportMonth (reportPanel demoMonth13) = Some "13"
  ∧ inflight (browser (step ClickGenerateReport demoMonth13))
    = [GetMonthlyDre "2024" "13"]
  ∧ alerts (browser (step ClickGenerateReport demoMonth13)) = [].
Proof. by vm_compute. Qed.

Lemma reportPanel_addLogs newLogs st :
  reportPanel (addLogs newLogs st) = reportPanel st.
Proof. by destruct (addLogs_frame newLogs st) as (_ & _ & _ & _ & ? & _). Qed.

Lemma reportPanel_stopPolling st :
  reportPanel (stopPolling st) = reportPanel st.
Proof. by destruct (stopPolling_frame st) as (_ & _ & _ & _ & _ & ? & _). Qed.

Lemma reportPanel_pollSettled r st :
  reportPanel (pollSettled r st) = reportPanel st.
Proof.
  assert (∀ e s, reportPanel (pollCatch e s) = reportPanel s) as Hcatch.
  { intros e s. unfold pollCatch.
    change (reportPanel (setIsProcessing false ?s)) with (reportPanel s).
    by rewrite reportPanel_stopPolling, reportPanel_addLogs. }
  destruct r as [e|statusText|e|[newLogs|]]; unfold pollSettled;
    [apply Hcatch..| |done].
  case_decide; [|done].
  destruct (newLogs !! _) as [lastLog|];
    [|by rewrite Hcatch, reportPanel_addLogs].
  destruct (isTerminalLog lastLog).
  - change (reportPanel (setInternalFile None (setBankFile None
              (setIsProcessing false ?s)))) with (reportPanel s).
    by rewrite reportPanel_stopPolling, reportPanel_addLogs.
  - apply reportPanel_addLogs.
Qed.

Lemma reportPanel_uploadSettled r st :
  reportPanel (uploadSettled r st) = reportPanel st.
Proof.
  assert (∀ e, reportPanel (uploadCatch e st) = reportPanel st) as Hcatch.
  { intros e. unfold uploadCatch.
    change (reportPanel (setInternalFile None (setBankFile None
              (setIsProcessing false ?s)))) with (reportPanel s).
    apply reportPanel_addLogs. }
  destruct r as [e|e|[] data]; unfold uploadSettled;
    [apply Hcatch..| |apply Hcatch].
  change (reportPanel (setCurrentJobId ?j ?s)) with (reportPanel s).
  apply reportPanel_addLogs.
Qed.

Lemma reportPanel_handleUpload file endpoint st :
  reportPanel (handleUpload file endpoint st) = reportPanel st.
Proof.
  unfold handleUpload. destruct file as [f|]; [|apply reportPanel_addLogs].
  change (reportPanel (fetch ?r ?s)) with (reportPanel s).
  by rewrite reportPanel_addLogs.
Qed.


(** ** A whole job *)

(** A new upload starts from a transcript of exactly one entry. *)
Lemma handleUpload_resets_transcript f endpoint st :
  logMessages (handleUpload (Some f) endpoint st)
  = [ {| type := info;
         text := "Uploading " +:+ name f +:+ " to " +:+ endpoint +:+ "..." |} ].
Proof.
  unfold handleUpload. simpl. rewrite logMessages_addLogs. simpl.
  by rewrite addLogsUpdater_fresh by (simpl; apply not_elem_of_nil).
Qed.

(** A response with no [logs], or with none in it, changes nothing. *)
Lemma poll_empty_batch st i jobId :
  inflight (browser st) !! i = Some (GetLogs jobId) →
  step (LogsSettle i (LogsResponse None)) st = settle i st
  ∧ step (LogsSettle i (LogsResponse (Some []))) st = settle i st.
Proof.
  intros Hreq. unfold step, handle. rewrite Hreq. simpl.
  by rewrite commit_same_deps.
Qed.

Example demoProcessing_value :
  isProcessing demoProcessing = true
  ∧ currentJobId demoProcessing = jobString "abc"
  ∧ pollingIntervalRef demoProcessing = Some 1%positive
  ∧ intervals (browser demoProcessing) !! 1%positive = Some "abc"
  ∧ inflight (browser demoProcessing) = []
  ∧ logMessages demoProcessing
    = [ {| type := info; text := "Uploading extrato.pdf to /api/ingest..." |};
        {| type := success; text := "Upload complete. Processing..." |} ].
Proof. by vm_compute. Qed.

(** The job of the specification's example, from the file choice to
    the terminal line. *)
Example whole_job :
  let st := run [ IntervalFires 1;
                  LogsSettle 0 (LogsResponse
                    (Some [ {| type := success;
                               text := "Job abc finished successfully" |} ])) ]
                demoProcessing in
  isProcessing demoUploading = true
  ∧ activePollers demoUploading = 0
  ∧ activePollers demoProcessing = 1
  ∧ isProcessing st = false
  ∧ activePollers st = 0
  ∧ bankFile st = None
  ∧ logMessages st
    = [ {| type := info; text := "Uploading extrato.pdf to /api/ingest..." |};
        {| type := success; text := "Upload complete. Processing..." |};
        {| type := success; text := "Job abc finished successfully" |} ].
Proof. by vm_compute. Qed.

(** * Further properties *)

(** ** The transcript across calls *)

Lemma filteredNewLogs_texts newLogs currentLogs s :
  s ∈ text <$> filteredNewLogs newLogs currentLogs
  ↔ s ∈ text <$> newLogs ∧ s ∉ text <$> currentLogs.
Proof.
  unfold filteredNewLogs. split.
  - intros (log & -> & Hlog)%list_elem_of_fmap.
    apply list_elem_of_filter in Hlog as [Hfresh Hin].
    split; [by apply list_elem_of_fmap_2|]. by rewrite <- elem_of_existingTexts.
  - intros [(log & -> & Hin)%list_elem_of_fmap Hfresh].
    apply list_elem_of_fmap_2, list_elem_of_filter.
    by rewrite elem_of_existingTexts.
Qed.

Lemma addLogsUpdater_covers newLogs currentLogs log :
  log ∈ newLogs → text log ∈ text <$> addLogsUpdater newLogs currentLogs.
Proof.
  intros Hlog. rewrite addLogsUpdater_app, fmap_app, elem_of_app.
  destruct (decide (text log ∈ text <$> currentLogs)); [by left|right].
  apply filteredNewLogs_texts. split; [by apply list_elem_of_fmap_2|done].
Qed.

(** After [addLogs], the texts of the transcript are those it had
    together with those of the batch: no text of a batch is lost, and
    none appears that was in neither. *)
Theorem addLogs_texts (newLogs currentLogs : list LogMessage) (s : string) :
  s ∈ text <$> addLogsUpdater newLogs currentLogs
  ↔ s ∈ text <$> currentLogs ∨ s ∈ text <$> newLogs.
Proof.
  rewrite addLogsUpdater_app, fmap_app, elem_of_app, filteredNewLogs_texts.
  destruct (decide (s ∈ text <$> currentLogs)); tauto.
Qed.

(** Handing the same batch to [addLogs] again changes nothing: a log
    endpoint that answers every poll with all the lines so far does
    not make the transcript grow. *)
Theorem addLogs_idempotent (newLogs currentLogs : list LogMessage) :
  addLogsUpdater newLogs (addLogsUpdater newLogs currentLogs)
  = addLogsUpdater newLogs currentLogs.
Proof.
  apply addLogsUpdater_present. intros log Hlog.
  by apply addLogsUpdater_covers.
Qed.

(** A batch that extends an earlier one by further lines appends just
    the lines that are new. *)
Theorem addLogs_cumulative (seen more currentLogs : list LogMessage) :
  addLogsUpdater (seen ++ more) (addLogsUpdater seen currentLogs)
  = addLogsUpdater more (addLogsUpdater seen currentLogs).
Proof.
  rewrite (addLogsUpdater_app (seen ++ more)), (addLogsUpdater_app more).
  f_equal. unfold filteredNewLogs. rewrite filter_app.
  replace (filter _ seen) with (@nil LogMessage); [done|].
  symmetry. apply (filteredNewLogs_nil seen). intros log Hlog.
  by apply addLogsUpdater_covers.
Qed.

(** However many batches are handed to [addLogs], the transcript it
    started from stays in front, in its order, and when the transcript
    and every batch are free of repeated texts so is the result. *)
Theorem addLogs_sequence (batches : list (list LogMessage))
    (currentLogs : list LogMessage) :
  currentLogs
    `prefix_of` foldl (λ logs batch, addLogsUpdater batch logs)
                      currentLogs batches
  ∧ (NoDup (text <$> currentLogs) →
     Forall (λ batch, NoDup (text <$> batch)) batches →
     NoDup (text <$> foldl (λ logs batch, addLogsUpdater batch logs)
                       currentLogs batches)).
Proof.
  revert currentLogs.
  induction batches as [|batch batches IH]; intros currentLogs; [done|].
  destruct (IH (addLogsUpdater batch currentLogs)) as [Hprefix Hnodup].
  split.
  - simpl. etrans; [apply addLogsUpdater_prefix|done].
  - intros Hcur Hall. apply Forall_cons in Hall as [Hbatch Hall]. simpl.
    apply Hnodup; [by apply addLogsUpdater_NoDup|done].
Qed.

Lemma addLogs_sequence_witness :
  NoDup (text <$> foldl (λ logs batch, addLogsUpdater batch logs)
                    [ {| type := info; text := "a" |} ]
                    [ [ {| type := server; text := "b" |} ];
                      [ {| type := server; text := "b" |};
                        {| type := server; text := "c" |} ] ]).
Proof.
  apply (addLogs_sequence
           [ [ {| type := server; text := "b" |} ];
             [ {| type := server; text := "b" |};
               {| type := server; text := "c" |} ] ]
           [ {| type := info; text := "a" |} ]).
  - apply (bool_decide_unpack _). by vm_compute.
  - repeat constructor; apply (bool_decide_unpack _); by vm_compute.
Defined.

(** ** The terminal test *)

Lemma append_cons c s t : String c s +:+ t = String c (s +:+ t).
Proof. reflexivity. Qed.

Lemma prefix_append needle haystack :
  String.prefix needle haystack = true
  ↔ ∃ post, haystack = needle +:+ post.
Proof.
  revert haystack. induction needle as [|a needle IH]; intros haystack.
  - split; [by exists haystack|by destruct haystack].
  - destruct haystack as [|b haystack]; simpl.
    + split; [done|]. by intros [post ?].
    + destruct (Ascii.ascii_dec a b) as [->|Hne].
      * rewrite IH. split; intros [post Hpost]; exists post;
          rewrite append_cons in *; congruence.
      * split; [done|]. intros [post Hpost].
        rewrite append_cons in Hpost. congruence.
Qed.

Lemma includes_append needle haystack :
  includes needle haystack = true
  ↔ ∃ pre post, haystack = pre +:+ needle +:+ post.
Proof.
  induction haystack as [|b haystack IH]; cbn [includes].
  - rewrite orb_false_r, prefix_append. split.
    + intros [post Hpost]. by exists "", post.
    + intros (pre & post & Hpost). destruct pre; [by exists post|done].
  - rewrite orb_true_iff, prefix_append, IH. split.
    + intros [[post Hpost]|(pre & post & Hpost)].
      * by exists "", post.
      * exists (String b pre), post. by rewrite append_cons, Hpost.
    + intros (pre & post & Hpost). destruct pre as [|c pre].
      * left. by exists post.
      * right. exists pre, post. rewrite append_cons in Hpost. congruence.
Qed.

(** The interval callback ends the job exactly when the last entry is
    of kind success or error and its text reads [pre ++ "Job" ++ post]
    for some [pre] and [post]: the three characters must occur as they
    are, capital J included, anywhere in the text. An entry of kind
    info or server never ends the job. *)
Theorem isTerminalLog_substring (lastLog : LogMessage) :
  (isTerminalLog lastLog = true
   ↔ (type lastLog = success ∨ type lastLog = error)
     ∧ ∃ pre post, text lastLog = pre +:+ "Job" +:+ post)
  ∧ (type lastLog = info ∨ type lastLog = server →
     isTerminalLog lastLog = false).
Proof.
  split.
  - by rewrite isTerminalLog_spec, includes_append.
  - unfold isTerminalLog. by intros [-> | ->].
Qed.

Lemma isTerminalLog_substring_witness :
  isTerminalLog {| type := server; text := "Job 7 queued" |} = false.
Proof.
  apply (isTerminalLog_substring {| type := server; text := "Job 7 queued" |}).
  right. reflexivity.
Defined.

(** ** When a poller runs *)

Lemma no_job_no_poller st :
  pollerInvariant st →
  truthyJobId (currentJobId st) && isProcessing st = false →
  timersOf st = (None, ∅).
Proof.
  unfold pollerInvariant, timersOf. intros Hinv Hidle.
  destruct (pollingIntervalRef st) as [id|].
  - destruct Hinv as (jobId & _ & Hjob & Htruthy & Hbusy).
    rewrite Hjob, Hbusy in Hidle. simpl in Hidle.
    rewrite Htruthy in Hidle. done.
  - by destruct Hinv as [-> _].
Qed.

(** In every reachable state an interval timer is live exactly when
    the component is processing and holds a non-empty job id; there is
    then one timer, it is the one in [pollingIntervalRef], and it
    polls for the current job id and no other. *)
Theorem poller_runs_iff_processing (st : Dashboard) :
  reachable st →
  (activePollers st = 1
   ↔ isProcessing st = true ∧ truthyJobId (currentJobId st) = true)
  ∧ (activePollers st = 0
     ↔ isProcessing st = false ∨ truthyJobId (currentJobId st) = false)
  ∧ (∀ id jobId,
       intervals (browser st) !! id = Some jobId →
       pollingIntervalRef st = Some id ∧ currentJobId st = jobString jobId).
Proof.
  intros Hreach. pose proof (reachable_invariant _ Hreach) as Hinv.
  unfold pollerInvariant, activePollers in *.
  destruct (pollingIntervalRef st) as [ref|].
  - destruct Hinv as (job & Hint & Hjob & Htruthy & Hbusy).
    rewrite Hint, map_size_singleton, Hjob, Hbusy. simpl. rewrite Htruthy.
    split_and!; [done|split; [done|by intros [|]]|].
    intros id jobId Hlive. apply lookup_singleton_Some in Hlive as [<- <-].
    done.
  - destruct Hinv as [Hint Hidle]. rewrite Hint, map_size_empty.
    split_and!.
    + split; [done|]. intros [Hbusy Htruthy].
      by rewrite Hbusy, Htruthy in Hidle.
    + split; [|done]. intros _.
      apply andb_false_iff in Hidle as [?|?]; auto.
    + intros id jobId Hlive. by rewrite lookup_empty in Hlive.
Qed.

Lemma poller_runs_iff_processing_witness :
  activePollers demoProcessing = 1
  ↔ isProcessing demoProcessing = true
    ∧ truthyJobId (currentJobId demoProcessing) = true.
Proof.
  apply (poller_runs_iff_processing demoProcessing).
  apply reachable_run, reachable_init.
Defined.

Lemma step_not_processing e st :
  reachable st →
  isProcessing (handle e st) = false →
  timersOf (step e st) = (None, ∅)
  ∧ sameBut_timers (handle e st) (step e st).
Proof.
  intros Hreach Hidle. pose proof (reachable_invariant _ Hreach) as Hinv.
  apply commit_not_processing; [done..|].
  destruct (timersOf_handle e st) as [?|[? _]]; auto.
  by apply pollerInvariant_tidy.
Qed.

(** ** Choosing a file *)

(** A file chosen while nothing is processing becomes the selection of
    its own tab only, replaces the whole transcript by the single line
    "Bank file selected: <name>" (or "Internal file selected: <name>"),
    and drops the job id; no request is issued and no poller runs. A
    dialog closed without a file changes nothing. *)
Theorem file_choice_starts_afresh (st : Dashboard) (f : File) :
  reachable st →
  isProcessing st = false →
  (let st' := step (PickBankFile (Some f)) st in
   bankFile st' = Some f ∧ internalFile st' = internalFile st
   ∧ logMessages st'
     = [ {| type := info; text := "Bank file selected: " +:+ name f |} ]
   ∧ currentJobId st' = null ∧ isProcessing st' = false
   ∧ activePollers st' = 0
   ∧ inflight (browser st') = inflight (browser st))
  ∧ (let st' := step (PickInternalFile (Some f)) st in
     internalFile st' = Some f ∧ bankFile st' = bankFile st
     ∧ logMessages st'
       = [ {| type := info; text := "Internal file selected: " +:+ name f |} ]
     ∧ currentJobId st' = null ∧ isProcessing st' = false
     ∧ activePollers st' = 0
     ∧ inflight (browser st') = inflight (browser st))
  ∧ step (PickBankFile None) st = st
  ∧ step (PickInternalFile None) st = st.
Proof.
  intros Hreach Hidle.
  assert (∀ e, isProcessing (handle e st) = false →
               activePollers (step e st) = 0) as Hnone.
  { intros e He. destruct (step_not_processing e st Hreach He) as [Ht _].
    unfold timersOf in Ht. injection Ht as _ Hint.
    unfold activePollers. by rewrite Hint, map_size_empty. }
  split_and!.
  - pose proof (commit_frame st (handle (PickBankFile (Some f)) st))
      as (Hb & Hi & Hp & Hj & Hl & _ & Hr & _).
    pose proof (Hnone (PickBankFile (Some f))) as Hn.
    unfold step in *. simpl in *. rewrite Hidle in *. simpl in *.
    split_and!; [done..|congruence|by apply Hn|done].
  - pose proof (commit_frame st (handle (PickInternalFile (Some f)) st))
      as (Hb & Hi & Hp & Hj & Hl & _ & Hr & _).
    pose proof (Hnone (PickInternalFile (Some f))) as Hn.
    unfold step in *. simpl in *. rewrite Hidle in *. simpl in *.
    split_and!; [done..|congruence|by apply Hn|done].
  - unfold step. simpl. rewrite Hidle. by apply commit_same_deps.
  - unfold step. simpl. rewrite Hidle. by apply commit_same_deps.
Qed.

Lemma file_choice_starts_afresh_witness :
  logMessages (step (PickBankFile (Some demoFile))
                    (initialDashboard "2025" "11"))
  = [ {| type := info; text := "Bank file selected: extrato.pdf" |} ].
Proof.
  pose proof (file_choice_starts_afresh (initialDashboard "2025" "11") demoFile
                (reachable_init "2025" "11") eq_refl)
    as ((_ & _ & Hlogs & _) & _).
  exact Hlogs.
Defined.

(** ** Submitting and its answer *)

Lemma handleUpload_some_frame f endpoint st :
  let st' := handleUpload (Some f) endpoint st in
  isProcessing st' = true ∧ currentJobId st' = null
  ∧ logMessages st'
    = [ {| type := info;
           text := "Uploading " +:+ name f +:+ " to " +:+ endpoint +:+ "..." |} ]
  ∧ inflight (browser st') = inflight (browser st) ++ [PostFile endpoint f]
  ∧ bankFile st' = bankFile st ∧ internalFile st' = internalFile st.
Proof.
  pose proof (handleUpload_resets_transcript f endpoint st) as Hlogs.
  unfold handleUpload in *.
  set (entry := {| type := info;
                   text := "Uploading " +:+ name f +:+ " to "
                           +:+ endpoint +:+ "..." |}) in *.
  pose proof (addLogs_frame [entry]
                (setLogMessages [] (setCurrentJobId null
                   (setIsProcessing true st))))
    as (Hb & Hi & Hp & Hj & _ & _ & _ & _ & Hr & _).
  simpl in *. by rewrite Hr.
Qed.

Lemma step_click_upload st f e endpoint :
  reachable st →
  handle e st = handleUpload (Some f) endpoint st →
  let st' := step e st in
  isProcessing st' = true ∧ currentJobId st' = null
  ∧ logMessages st'
    = [ {| type := info;
           text := "Uploading " +:+ name f +:+ " to "
                   +:+ endpoint +:+ "..." |} ]
  ∧ inflight (browser st')
    = inflight (browser st) ++ [PostFile endpoint f]
  ∧ bankFile st' = bankFile st ∧ internalFile st' = internalFile st
  ∧ activePollers st' = 0.
Proof.
  intros Hreach He st'.
  assert (reachable st') as Hreach' by by constructor.
  destruct (handleUpload_some_frame f endpoint st)
    as (Hp & Hj & Hl & Hr & Hb & Hi).
  destruct (commit_frame st (handle e st))
    as (Hb' & Hi' & Hp' & Hj' & Hl' & _ & Hr' & _).
  fold (step e st) in Hb', Hi', Hp', Hj', Hl', Hr'.
  fold st' in Hb', Hi', Hp', Hj', Hl', Hr'.
  rewrite He in Hb', Hi', Hp', Hj', Hl', Hr'.
  assert (currentJobId st' = null) as Hnull by congruence.
  split_and!; try congruence.
  pose proof (no_job_no_poller st' (reachable_invariant _ Hreach')) as Hnone.
  rewrite Hnull in Hnone. specialize (Hnone eq_refl).
  unfold timersOf in Hnone. injection Hnone as _ Hint.
  unfold activePollers. by rewrite Hint, map_size_empty.
Qed.

Lemma step_click_upload_bank st f :
  reachable st → isProcessing st = false → bankFile st = Some f →
  let st' := step ClickUploadBank st in
  isProcessing st' = true ∧ currentJobId st' = null
  ∧ logMessages st'
    = [ {| type := info;
           text := "Uploading " +:+ name f +:+ " to /api/ingest..." |} ]
  ∧ inflight (browser st')
    = inflight (browser st) ++ [PostFile "/api/ingest" f]
  ∧ bankFile st' = Some f ∧ internalFile st' = internalFile st
  ∧ activePollers st' = 0.
Proof.
  intros Hreach Hidle Hfile.
  pose proof (step_click_upload st f ClickUploadBank "/api/ingest" Hreach)
    as Hgen.
  simpl in Hgen. unfold uploadDisabled in Hgen.
  rewrite Hfile, Hidle in Hgen. simpl in Hgen.
  destruct (Hgen eq_refl) as (? & ? & ? & ? & ? & ? & ?).
  split_and!; first [assumption | congruence].
Qed.

(** A click on an enabled upload button (a file is selected, nothing
    is processing) sets the processing flag, drops the job id, resets
    the transcript to the single line "Uploading <name> to
    <endpoint>...", and issues exactly one POST of the selected file,
    to /api/ingest from the bank tab and to /api/ingest_internal from
    the internal tab. In the state the click leaves, both selections
    are what they were before it and no interval timer is live. *)
Theorem submit_starts_one_upload (st : Dashboard) (f : File) :
  reachable st →
  isProcessing st = false →
  (bankFile st = Some f →
   let st' := step ClickUploadBank st in
   isProcessing st' = true ∧ currentJobId st' = null
   ∧ logMessages st'
     = [ {| type := info;
            text := "Uploading " +:+ name f +:+ " to /api/ingest..." |} ]
   ∧ inflight (browser st')
     = inflight (browser st) ++ [PostFile "/api/ingest" f]
   ∧ bankFile st' = Some f ∧ internalFile st' = internalFile st
   ∧ activePollers st' = 0)
  ∧ (internalFile st = Some f →
     let st' := step ClickUploadInternal st in
     isProcessing st' = true ∧ currentJobId st' = null
     ∧ logMessages st'
       = [ {| type := info;
              text := "Uploading " +:+ name f
                      +:+ " to /api/ingest_internal..." |} ]
     ∧ inflight (browser st')
       = inflight (browser st) ++ [PostFile "/api/ingest_internal" f]
     ∧ internalFile st' = Some f ∧ bankFile st' = bankFile st
     ∧ activePollers st' = 0).
Proof.
  intros Hreach Hidle. split.
  - by apply step_click_upload_bank.
  - intros Hfile.
    pose proof (step_click_upload st f ClickUploadInternal
                  "/api/ingest_internal" Hreach) as Hgen.
    simpl in Hgen. unfold uploadDisabled in Hgen.
    rewrite Hfile, Hidle in Hgen. simpl in Hgen.
    destruct (Hgen eq_refl) as (? & ? & ? & ? & ? & ? & ?).
    split_and!; first [assumption | congruence].
Qed.

Lemma submit_starts_one_upload_witness :
  inflight (browser (step ClickUploadBank
                       (step (PickBankFile (Some demoFile))
                             (initialDashboard "2025" "11"))))
  = [PostFile "/api/ingest" demoFile].
Proof.
  assert (reachable (step (PickBankFile (Some demoFile))
                          (initialDashboard "2025" "11"))) as Hreach
    by (apply reachable_step, reachable_init).
  pose proof (submit_starts_one_upload _ demoFile Hreach eq_refl) as [Hbank _].
  destruct (Hbank eq_refl) as (_ & _ & _ & Hreq & _).
  exact Hreq.
Defined.

Lemma upload_success_starts_poller_witness :
  currentJobId
    (step (UploadSettles 0 (UploadResponse true
             {| detail := DetailAbsent; job_id := Some "abc" |}))
          demoUploading)
  = jobString "abc".
Proof.
  assert (reachable demoUploading) as Hreach
    by (apply reachable_run, reachable_init).
  assert (inflight (browser demoUploading) !! 0
          = Some (PostFile "/api/ingest" demoFile)) as Hreq
    by (vm_compute; reflexivity).
  assert (isProcessing demoUploading = true) as Hbusy
    by (vm_compute; reflexivity).
  pose proof (upload_success_starts_poller demoUploading 0 _ _
                {| detail := DetailAbsent; job_id := Some "abc" |} "abc"
                Hreach Hreq Hbusy eq_refl ltac:(discriminate)) as [Hjob _].
  exact Hjob.
Defined.

(** An upload answered ok whose body has no [job_id], or an empty
    one, never starts a poller: the success line is handed to
    [addLogs], the job id becomes [undefined] or the empty string, and
    the processing flag and both selections stay as they were. *)
Theorem upload_ok_without_usable_job_id (st : Dashboard) (i : nat)
    (endpoint : string) (file : File) (data : UploadBody) :
  reachable st →
  inflight (browser st) !! i = Some (PostFile endpoint file) →
  job_id data = None ∨ job_id data = Some "" →
  let st' := step (UploadSettles i (UploadResponse true data)) st in
  activePollers st' = 0
  ∧ truthyJobId (currentJobId st') = false
  ∧ isProcessing st' = isProcessing st
  ∧ bankFile st' = bankFile st ∧ internalFile st' = internalFile st
  ∧ logMessages st'
    = addLogsUpdater
        [ {| type := success; text := "Upload complete. Processing..." |} ]
        (logMessages st)
  ∧ inflight (browser st') = delete i (inflight (browser st)).
Proof.
  intros Hreach Hreq Hfield st'.
  assert (reachable st') as Hreach' by by constructor.
  assert (st' = commit st (uploadSettled (UploadResponse true data) (settle i st)))
    as Hst' by (unfold st', step, handle; by rewrite Hreq).
  destruct (uploadSettled_ok_frame data (settle i st))
    as (Hlogs & Hjob & Hproc & Hb & Hi & Hr).
  set (next := uploadSettled (UploadResponse true data) (settle i st)) in *.
  destruct (commit_frame st next) as (Hb' & Hi' & Hp' & Hj' & Hl' & _ & Hr' & _).
  rewrite <- Hst' in Hb', Hi', Hp', Hj', Hl', Hr'.
  assert (truthyJobId (currentJobId st') = false) as Hfalsy.
  { rewrite Hj', Hjob. unfold jobIdOf. by destruct Hfield as [-> | ->]. }
  pose proof (no_job_no_poller st' (reachable_invariant _ Hreach')) as Hnone.
  rewrite Hfalsy in Hnone. specialize (Hnone eq_refl).
  unfold timersOf in Hnone. injection Hnone as _ Hint.
  split_and!.
  - unfold activePollers. by rewrite Hint, map_size_empty.
  - done.
  - by rewrite Hp', Hproc.
  - by rewrite Hb', Hb.
  - by rewrite Hi', Hi.
  - by rewrite Hl', Hlogs.
  - by rewrite Hr', Hr.
Qed.

Lemma upload_ok_without_usable_job_id_witness :
  activePollers
    (step (UploadSettles 0 (UploadResponse true
             {| detail := DetailAbsent; job_id := Some "" |}))
          demoUploading) = 0.
Proof.
  assert (reachable demoUploading) as Hreach
    by (apply reachable_run, reachable_init).
  assert (inflight (browser demoUploading) !! 0
          = Some (PostFile "/api/ingest" demoFile)) as Hreq
    by (vm_compute; reflexivity).
  pose proof (upload_ok_without_usable_job_id demoUploading 0 _ _
                {| detail := DetailAbsent; job_id := Some "" |}
                Hreach Hreq (or_intror eq_refl)) as [Hnone _].
  exact Hnone.
Defined.

(** The message of a failed upload or report request is never empty:
    it is the server's text when the body carries one, and otherwise
    "Upload failed", "Failed to generate report" or the rendering of
    an object. The report handler reads [detail] only, so a [detail]
    object always shows as "[object Object]" there. *)
Theorem failure_messages_never_empty (d : Detail) :
  uploadFailureMessage d ≠ ""
  ∧ reportFailureMessage d ≠ ""
  ∧ (∀ m, d = DetailObject m → reportFailureMessage d = "[object Object]")
  ∧ (∀ s, d = DetailString s → s ≠ "" →
          uploadFailureMessage d = s ∧ reportFailureMessage d = s).
Proof.
  assert (∀ s, truthyString s = true → s ≠ "") as Htruthy
    by (intros s; unfold truthyString; by rewrite bool_decide_eq_true).
  split_and!.
  - destruct d as [|s|[m|]]; simpl; try done.
    + by destruct (truthyString s) eqn:Hs; [apply Htruthy|].
    + by destruct (truthyString m) eqn:Hm; [apply Htruthy|].
  - destruct d as [|s|m]; simpl; try done.
    by destruct (truthyString s) eqn:Hs; [apply Htruthy|].
  - by intros m ->.
  - intros s -> Hs. simpl. unfold truthyString.
    by rewrite bool_decide_eq_true_2.
Qed.

Lemma failure_messages_never_empty_witness :
  uploadFailureMessage (DetailString "Unsupported file") = "Unsupported file"
  ∧ reportFailureMessage (DetailString "Unsupported file") = "Unsupported file".
Proof.
  apply (failure_messages_never_empty (DetailString "Unsupported file"));
    [reflexivity|discriminate].
Defined.

(** ** What responses do to the transcript *)

Lemma logMessages_stopPolling st :
  logMessages (stopPolling st) = logMessages st.
Proof. by destruct (stopPolling_frame st) as (_ & _ & _ & _ & ? & _). Qed.

Lemma addLogs_prefix newLogs st :
  logMessages st `prefix_of` logMessages (addLogs newLogs st).
Proof. rewrite logMessages_addLogs. apply addLogsUpdater_prefix. Qed.

Lemma pollSettled_prefix r st :
  logMessages st `prefix_of` logMessages (pollSettled r st).
Proof.
  assert (∀ e s, logMessages s `prefix_of` logMessages (pollCatch e s))
    as Hcatch.
  { intros e s. unfold pollCatch.
    change (logMessages (setIsProcessing false ?x)) with (logMessages x).
    rewrite logMessages_stopPolling. apply addLogs_prefix. }
  destruct r as [e|statusText|e|[newLogs|]]; unfold pollSettled;
    [apply Hcatch..| |done].
  case_decide; [|done].
  destruct (newLogs !! _) as [lastLog|].
  - destruct (isTerminalLog lastLog); [|apply addLogs_prefix].
    change (logMessages (setInternalFile None (setBankFile None
              (setIsProcessing false ?x)))) with (logMessages x).
    rewrite logMessages_stopPolling. apply addLogs_prefix.
  - etrans; [apply (addLogs_prefix newLogs)|apply Hcatch].
Qed.

Lemma uploadSettled_prefix r st :
  logMessages st `prefix_of` logMessages (uploadSettled r st).
Proof.
  assert (∀ e, logMessages st `prefix_of` logMessages (uploadCatch e st))
    as Hcatch.
  { intros e. unfold uploadCatch.
    change (logMessages (setInternalFile None (setBankFile None
              (setIsProcessing false ?x)))) with (logMessages x).
    apply addLogs_prefix. }
  destruct r as [e|e|[] data]; unfold uploadSettled;
    [apply Hcatch..| |apply Hcatch].
  change (logMessages (setCurrentJobId ?j ?x)) with (logMessages x).
  apply addLogs_prefix.
Qed.

(** Only a file choice and a submit replace the transcript. Every
    other event (a tick, the answer to an upload, a poll result or
    failure, anything on the report tab) leaves the lines that are
    there in place and in order, and at most adds lines after them. *)
Theorem responses_only_append (e : Event) (st : Dashboard) :
  resetsTranscript e = false →
  logMessages st `prefix_of` logMessages (step e st).
Proof.
  intros He. unfold step.
  destruct (commit_frame st (handle e st)) as (_ & _ & _ & _ & -> & _).
  destruct e; try discriminate He; unfold handle.
  - done.
  - done.
  - unfold handleGenerateReport. by destruct (reportPeriod st) as [[y m]|].
  - by destruct (intervals (browser st) !! id).
  - destruct (inflight (browser st) !! i) as [[]|]; [|done..].
    apply (uploadSettled_prefix r (settle i st)).
  - destruct (inflight (browser st) !! i) as [[]|]; [done| |done..].
    apply (pollSettled_prefix r (settle i st)).
  - destruct (inflight (browser st) !! i) as [[]|]; [done..| |done].
    by destruct r as [e|e|[] d data].
Qed.

Lemma responses_only_append_witness :
  logMessages demoSeen
    `prefix_of` logMessages (step (LogsSettle 0 (LogsNotOk "Bad Gateway"))
                                  demoSeen).
Proof.
  apply (responses_only_append (LogsSettle 0 (LogsNotOk "Bad Gateway")) demoSeen).
  reflexivity.
Defined.

(** ** The report tab and the upload pipeline *)

Lemma reportPanel_step e st :
  touchesReport e = false → reportPanel (step e st) = reportPanel st.
Proof.
  intros He. unfold step.
  destruct (commit_frame st (handle e st)) as (_ & _ & _ & _ & _ & -> & _).
  destruct e; try discriminate He; unfold handle.
  - destruct (isProcessing st); [done|]. by destruct selectedFile.
  - destruct (isProcessing st); [done|]. by destruct selectedFile.
  - destruct (uploadDisabled _ _); [done|]. by rewrite reportPanel_handleUpload.
  - destruct (uploadDisabled _ _); [done|]. by rewrite reportPanel_handleUpload.
  - by destruct (intervals (browser st) !! id).
  - destruct (inflight (browser st) !! i) as [[]|]; [|done..].
    by rewrite reportPanel_uploadSettled.
  - destruct (inflight (browser st) !! i) as [[]|]; [done| |done..].
    by rewrite reportPanel_pollSettled.
Qed.

(** The report tab and the upload pipeline do not touch each other's
    state. A choice in the Month or Year select, a click on Generate
    Report and a failed report request leave the file selections, the
    processing flag, the job id, the transcript and the poller as they
    are; any event that is not of the report tab leaves the selected
    period, the loaded report and the loading flag as they are. (An ok
    report answer is left out: the page then renders the body.) *)
Theorem report_tab_leaves_the_upload_alone (e : Event) (st : Dashboard) :
  (touchesReport e = true → okReportAnswer e = false →
   bankFile (step e st) = bankFile st
   ∧ internalFile (step e st) = internalFile st
   ∧ isProcessing (step e st) = isProcessing st
   ∧ currentJobId (step e st) = currentJobId st
   ∧ logMessages (step e st) = logMessages st
   ∧ timersOf (step e st) = timersOf st)
  ∧ (touchesReport e = false → reportPanel (step e st) = reportPanel st).
Proof.
  split; [|apply reportPanel_step].
  intros He _.
  assert (bankFile (handle e st) = bankFile st
          ∧ internalFile (handle e st) = internalFile st
          ∧ isProcessing (handle e st) = isProcessing st
          ∧ currentJobId (handle e st) = currentJobId st
          ∧ logMessages (handle e st) = logMessages st
          ∧ timersOf (handle e st) = timersOf st)
    as (Hb & Hi & Hp & Hj & Hl & Ht).
  { destruct e; try discriminate He; unfold handle.
    - done.
    - done.
    - unfold handleGenerateReport. by destruct (reportPeriod st) as [[y m]|].
    - destruct (inflight (browser st) !! i) as [[]|]; [done..| |done].
      by destruct r as [e|e|[] d data]. }
  unfold step. rewrite commit_same_deps by done. by split_and!.
Qed.

Lemma report_tab_leaves_the_upload_alone_witness :
  logMessages (step ClickGenerateReport demoProcessing)
  = logMessages demoProcessing
  ∧ reportPanel (step (IntervalFires 1) demoProcessing)
    = reportPanel demoProcessing.
Proof.
  destruct (report_tab_leaves_the_upload_alone ClickGenerateReport demoProcessing)
    as [Hreport _].
  destruct (report_tab_leaves_the_upload_alone (IntervalFires 1) demoProcessing)
    as [_ Hupload].
  destruct (Hreport eq_refl eq_refl) as (_ & _ & _ & _ & Hlogs & _).
  exact (conj Hlogs (Hupload eq_refl)).
Defined.

(** ** A report query and its answer *)

Lemma step_generate_report st y m :
  reportPeriod st = Some (y, m) →
  step ClickGenerateReport st
  = fetch (GetMonthlyDre y m) (setDreData None (setIsReportLoading true st)).
Proof.
  intros Hperiod. unfold step, handle, handleGenerateReport.
  rewrite Hperiod. by apply commit_same_deps.
Qed.

(** A report query that fails, from the click to the answer: the
    click shows the loading state, discards the report shown before
    and issues one GET for the selected year and month. When the
    request fails (rejected [fetch], body that is not JSON, status not
    ok) the loading state ends, the request is no longer in flight, no
    report is held and "Report Error: <message>" is alerted. The
    selected period is never changed. *)
Theorem report_query_failure_round_trip (st : Dashboard) (y m : string)
    (r : ReportFetch) (msg : string) :
  reportPeriod st = Some (y, m) →
  reportFails r msg →
  let st1 := step ClickGenerateReport st in
  let st2 := step (ReportSettles (length (inflight (browser st))) r) st1 in
  inflight (browser st1) = inflight (browser st) ++ [GetMonthlyDre y m]
  ∧ isReportLoading (reportPanel st1) = true
  ∧ dreData (reportPanel st1) = None
  ∧ isReportLoading (reportPanel st2) = false
  ∧ inflight (browser st2) = inflight (browser st)
  ∧ reportYear (reportPanel st2) = reportYear (reportPanel st)
  ∧ reportMonth (reportPanel st2) = reportMonth (reportPanel st)
  ∧ dreData (reportPanel st2) = None
  ∧ alerts (browser st2) = alerts (browser st) ++ ["Report Error: " +:+ msg].
Proof.
  intros Hperiod Hfails st1 st2.
  assert (st1 = fetch (GetMonthlyDre y m)
                  (setDreData None (setIsReportLoading true st))) as Hst1
    by by apply step_generate_report.
  assert (inflight (browser st1) = inflight (browser st) ++ [GetMonthlyDre y m])
    as Hreq1 by by rewrite Hst1.
  assert (st2 = reportSettled r (settle (length (inflight (browser st))) st1))
    as Hst2.
  { unfold st2, step, handle. rewrite Hreq1, list_lookup_middle by done.
    apply commit_same_deps; by destruct Hfails. }
  assert (inflight (browser st2) = inflight (browser st)) as Hreq2.
  { rewrite Hst2.
    assert (inflight (browser (reportSettled r
              (settle (length (inflight (browser st))) st1)))
            = delete (length (inflight (browser st))) (inflight (browser st1)))
      as -> by by destruct Hfails.
    by rewrite Hreq1, delete_middle, app_nil_r. }
  split_and!; [done|by rewrite Hst1..| | | | | |].
  - rewrite Hst2. by destruct Hfails.
  - done.
  - rewrite Hst2, Hst1. by destruct Hfails.
  - rewrite Hst2, Hst1. by destruct Hfails.
  - rewrite Hst2, Hst1. by destruct Hfails.
  - rewrite Hst2, Hst1. by destruct Hfails.
Qed.

Lemma report_query_failure_round_trip_witness :
  alerts (browser
    (step (ReportSettles 0 (ReportResponse false (DetailString "No data")
                              {| payload := "" |}))
          (step ClickGenerateReport (initialDashboard "2025" "11"))))
  = ["Report Error: No data"].
Proof.
  pose proof (report_query_failure_round_trip (initialDashboard "2025" "11")
                "2025" "11" _ _ eq_refl
                (reportFails_status (DetailString "No data")
                   {| payload := "" |}))
    as (_ & _ & _ & _ & _ & _ & _ & _ & Halerts).
  exact Halerts.
Defined.

Lemma poll_empty_batch_witness :
  step (LogsSettle 0 (LogsResponse (Some []))) demoSeen = settle 0 demoSeen.
Proof.
  assert (inflight (browser demoSeen) !! 0 = Some (GetLogs "abc")) as Hreq
    by (vm_compute; reflexivity).
  exact (proj2 (poll_empty_batch demoSeen 0 "abc" Hreq)).
Defined.

(** ** A job from the submit to its terminal line *)

Lemma step_upload_ok st i endpoint file data :
  inflight (browser st) !! i = Some (PostFile endpoint file) →
  let st' := step (UploadSettles i (UploadResponse true data)) st in
  logMessages st'
  = addLogsUpdater
      [ {| type := success; text := "Upload complete. Processing..." |} ]
      (logMessages st)
  ∧ currentJobId st' = jobIdOf data
  ∧ isProcessing st' = isProcessing st
  ∧ bankFile st' = bankFile st ∧ internalFile st' = internalFile st
  ∧ inflight (browser st') = delete i (inflight (browser st)).
Proof.
  intros Hreq st'.
  assert (st' = commit st (uploadSettled (UploadResponse true data) (settle i st)))
    as Hst' by (unfold st', step, handle; by rewrite Hreq).
  destruct (uploadSettled_ok_frame data (settle i st))
    as (Hlogs & Hjob & Hproc & Hb & Hi & Hr).
  set (next := uploadSettled (UploadResponse true data) (settle i st)) in *.
  destruct (commit_frame st next) as (Hb' & Hi' & Hp' & Hj' & Hl' & _ & Hr' & _).
  rewrite <- Hst' in Hb', Hi', Hp', Hj', Hl', Hr'.
  split_and!.
  - by rewrite Hl', Hlogs.
  - by rewrite Hj', Hjob.
  - by rewrite Hp', Hproc.
  - by rewrite Hb', Hb.
  - by rewrite Hi', Hi.
  - by rewrite Hr', Hr.
Qed.

Lemma step_poll_terminal st i jobId newLogs lastLog :
  reachable st →
  inflight (browser st) !! i = Some (GetLogs jobId) →
  last newLogs = Some lastLog →
  isTerminalLog lastLog = true →
  let st' := step (LogsSettle i (LogsResponse (Some newLogs))) st in
  isProcessing st' = false ∧ bankFile st' = None ∧ internalFile st' = None
  ∧ activePollers st' = 0
  ∧ currentJobId st' = currentJobId st
  ∧ logMessages st' = addLogsUpdater newLogs (logMessages st)
  ∧ inflight (browser st') = delete i (inflight (browser st)).
Proof.
  intros Hreach Hreq Hlast Hterminal st'.
  pose proof (reachable_invariant _ Hreach) as Hinv.
  assert (st' = commit st (pollSettled (LogsResponse (Some newLogs)) (settle i st)))
    as Hst' by (unfold st', step, handle; by rewrite Hreq).
  rewrite (pollSettled_batch _ lastLog), Hterminal in Hst' by done.
  set (logged := addLogs newLogs (settle i st)) in *.
  set (next := setInternalFile None (setBankFile None (setIsProcessing false
                 (stopPolling logged)))) in *.
  pose proof (addLogs_frame newLogs (settle i st))
    as (_ & _ & _ & Hj & _ & _ & _ & _ & Hr & _).
  fold logged in Hj, Hr.
  destruct (stopPolling_frame logged) as (_ & _ & _ & Hj1 & Hl1 & _ & Hr1 & _).
  destruct (commit_not_processing st next) as (Hnone & Hframe); [done|done| |].
  { right. subst next.
    change (timersOf (setInternalFile None (setBankFile None
              (setIsProcessing false ?s)))) with (timersOf s).
    apply stopPolling_clears. eapply tidy_timersOf.
    - unfold logged. by rewrite timersOf_addLogs.
    - by apply pollerInvariant_tidy. }
  rewrite <- Hst' in Hnone, Hframe.
  destruct Hframe as (Hb' & Hi' & Hp' & Hj' & Hl' & _ & Hr' & _).
  unfold timersOf in Hnone. injection Hnone as _ Hint.
  split_and!.
  - by rewrite Hp'.
  - by rewrite Hb'.
  - by rewrite Hi'.
  - unfold activePollers. by rewrite Hint, map_size_empty.
  - rewrite Hj'. unfold next. simpl. by rewrite Hj1, Hj.
  - rewrite Hl'. unfold next. simpl. rewrite Hl1. unfold logged.
    by rewrite logMessages_addLogs.
  - rewrite Hr'. unfold next. simpl. by rewrite Hr1, Hr.
Qed.

Lemma upload_complete_fresh s :
  "Upload complete. Processing..." ∉ [ "Uploading " +:+ s ].
Proof.
  intros Hin%list_elem_of_singleton. rewrite !append_cons in Hin.
  discriminate Hin.
Qed.

(** A whole job. From any reachable state with a bank file selected
    and nothing processing: the submit, an ok answer carrying a
    non-empty job id, one tick of the poller that the answer started,
    and a poll result whose last entry is terminal. At the end nothing
    is processing, no poller runs, both selections are cleared, the
    requests in flight are those there were before, and the transcript
    is the two upload lines followed by the lines of the batch whose
    texts are not among them. *)
Theorem job_runs_to_completion (st : Dashboard) (f : File) (data : UploadBody)
    (jobId : string) (newLogs : list LogMessage) (lastLog : LogMessage) :
  reachable st →
  isProcessing st = false →
  bankFile st = Some f →
  job_id data = Some jobId → jobId ≠ "" →
  last newLogs = Some lastLog → isTerminalLog lastLog = true →
  let n := length (inflight (browser st)) in
  let st2 := run [ ClickUploadBank;
                   UploadSettles n (UploadResponse true data) ] st in
  ∃ id,
    pollingIntervalRef st2 = Some id
    ∧ intervals (browser st2) = {[ id := jobId ]}
    ∧ let st4 := run [ IntervalFires id;
                       LogsSettle n (LogsResponse (Some newLogs)) ] st2 in
      isProcessing st4 = false
      ∧ activePollers st4 = 0
      ∧ bankFile st4 = None ∧ internalFile st4 = None
      ∧ currentJobId st4 = jobString jobId
      ∧ inflight (browser st4) = inflight (browser st)
      ∧ logMessages st4
        = addLogsUpdater newLogs
            [ {| type := info;
                 text := "Uploading " +:+ name f +:+ " to /api/ingest..." |};
              {| type := success; text := "Upload complete. Processing..." |} ].
Proof.
  intros Hreach Hidle Hfile Hfield Hne Hlast Hterminal n st2.
  set (st1 := step ClickUploadBank st).
  assert (st2 = step (UploadSettles n (UploadResponse true data)) st1) as Hst2
    by done.
  assert (reachable st1) as Hreach1 by by constructor.
  assert (reachable st2) as Hreach2 by (rewrite Hst2; by constructor).
  destruct (step_click_upload_bank st f Hreach Hidle Hfile)
    as (Hp1 & _ & Hl1 & Hr1 & _).
  fold st1 in Hp1, Hl1, Hr1.
  assert (inflight (browser st1) !! n = Some (PostFile "/api/ingest" f)) as Hreq1
    by (rewrite Hr1; by apply list_lookup_middle).
  destruct (step_upload_ok st1 n _ _ data Hreq1)
    as (Hl2 & Hj2 & Hp2 & _ & _ & Hr2).
  rewrite <- Hst2 in Hl2, Hj2, Hp2, Hr2.
  unfold jobIdOf in Hj2. rewrite Hfield in Hj2.
  rewrite Hr1 in Hr2. unfold n in Hr2. rewrite delete_middle, app_nil_r in Hr2.
  rewrite Hl1, addLogsUpdater_fresh in Hl2
    by (simpl; apply upload_complete_fresh).
  destruct (processing_has_poller st2 jobId) as (id & Href & Hint);
    [by apply reachable_invariant|done|done|congruence|].
  exists id. split_and!; [done..|]. simpl.
  set (st3 := step (IntervalFires id) st2).
  assert (st3 = fetch (GetLogs jobId) st2) as Hst3
    by (apply step_tick; by rewrite Hint, lookup_singleton_eq).
  assert (reachable st3) as Hreach3 by by constructor.
  assert (inflight (browser st3) = inflight (browser st) ++ [GetLogs jobId])
    as Hr3 by (rewrite Hst3; simpl; by rewrite Hr2).
  assert (inflight (browser st3) !! n = Some (GetLogs jobId)) as Hreq3
    by (rewrite Hr3; by apply list_lookup_middle).
  destruct (step_poll_terminal st3 n jobId newLogs lastLog)
    as (Hp4 & Hb4 & Hi4 & Hn4 & Hj4 & Hl4 & Hr4); [done..|].
  split_and!; [done..| | |].
  - rewrite Hj4, Hst3. done.
  - rewrite Hr4, Hr3. unfold n. by rewrite delete_middle, app_nil_r.
  - rewrite Hl4, Hst3. simpl. by rewrite Hl2.
Qed.

Lemma job_runs_to_completion_witness :
  ∃ id,
    pollingIntervalRef
      (run [ ClickUploadBank;
             UploadSettles 0 (UploadResponse true
               {| detail := DetailAbsent; job_id := Some "abc" |}) ]
           (step (PickBankFile (Some demoFile)) (initialDashboard "2025" "11")))
    = Some id.
Proof.
  assert (reachable (step (PickBankFile (Some demoFile))
                          (initialDashboard "2025" "11"))) as Hreach
    by (apply reachable_step, reachable_init).
  destruct (job_runs_to_completion _ demoFile
              {| detail := DetailAbsent; job_id := Some "abc" |} "abc"
              [ {| type := success; text := "Job abc finished" |} ]
              {| type := success; text := "Job abc finished" |}
              Hreach eq_refl eq_refl eq_refl ltac:(discriminate)
              eq_refl eq_refl) as (id & Href & _).
  exact (ex_intro _ id Href).
Defined.

(** ** What can be submitted again *)

Lemma step_poll_fails st i jobId r msg :
  inflight (browser st) !! i = Some (GetLogs jobId) →
  pollFails r msg →
  let st' := step (LogsSettle i r) st in
  isProcessing st' = false
  ∧ bankFile st' = bankFile st ∧ internalFile st' = internalFile st.
Proof.
  intros Hreq Hfails st'.
  assert (st' = commit st (pollSettled r (settle i st))) as Hst'
    by (unfold st', step, handle; by rewrite Hreq).
  destruct (pollSettled_fails r msg (settle i st) Hfails) as (e & Hcatch & _).
  rewrite Hcatch in Hst'.
  destruct (commit_frame st (pollCatch e (settle i st)))
    as (Hb & Hi & Hp & _).
  rewrite <- Hst' in Hb, Hi, Hp.
  set (entry := {| type := error;
                   text := "Failed to fetch logs: " +:+ errorMessage e |}).
  pose proof (addLogs_frame [entry] (settle i st)) as (Hb2 & Hi2 & _).
  destruct (stopPolling_frame (addLogs [entry] (settle i st)))
    as (Hb1 & Hi1 & _).
  unfold pollCatch in Hb, Hi, Hp. fold entry in Hb, Hi, Hp. simpl in Hb, Hi, Hp.
  split_and!; [done|by rewrite Hb, Hb1, Hb2|by rewrite Hi, Hi1, Hi2].
Qed.

Lemma step_upload_fails st i endpoint file r msg :
  inflight (browser st) !! i = Some (PostFile endpoint file) →
  uploadFails r msg →
  let st' := step (UploadSettles i r) st in
  isProcessing st' = false ∧ bankFile st' = None ∧ internalFile st' = None.
Proof.
  intros Hreq Hfails st'.
  assert (st' = commit st (uploadSettled r (settle i st))) as Hst'
    by (unfold st', step, handle; by rewrite Hreq).
  destruct (uploadSettled_fails r msg (settle i st) Hfails) as (e & Hcatch & _).
  rewrite Hcatch in Hst'.
  destruct (uploadCatch_frame e (settle i st)) as (_ & Hp & Hb & Hi & _).
  destruct (commit_frame st (uploadCatch e (settle i st)))
    as (Hb' & Hi' & Hp' & _).
  rewrite <- Hst' in Hb', Hi', Hp'. split_and!; congruence.
Qed.

(** Which upload button works once a job has ended. After a failed
    poll request the file selections are still there, so a selected
    file can be submitted again at once. After a failed upload, and
    after a terminal log line, both selections are cleared and both
    upload buttons are disabled until a file is chosen anew. *)
Theorem resubmit_needs_the_selection (st : Dashboard) (i : nat) :
  (∀ jobId r msg f,
     inflight (browser st) !! i = Some (GetLogs jobId) →
     pollFails r msg →
     bankFile st = Some f →
     let st' := step (LogsSettle i r) st in
     bankFile st' = Some f ∧ uploadDisabled (bankFile st') st' = false)
  ∧ (∀ endpoint file r msg,
       inflight (browser st) !! i = Some (PostFile endpoint file) →
       uploadFails r msg →
       let st' := step (UploadSettles i r) st in
       uploadDisabled (bankFile st') st' = true
       ∧ uploadDisabled (internalFile st') st' = true
       ∧ step ClickUploadBank st' = st'
       ∧ step ClickUploadInternal st' = st')
  ∧ (∀ jobId newLogs lastLog,
       reachable st →
       inflight (browser st) !! i = Some (GetLogs jobId) →
       last newLogs = Some lastLog →
       isTerminalLog lastLog = true →
       let st' := step (LogsSettle i (LogsResponse (Some newLogs))) st in
       uploadDisabled (bankFile st') st' = true
       ∧ uploadDisabled (internalFile st') st' = true
       ∧ step ClickUploadBank st' = st'
       ∧ step ClickUploadInternal st' = st').
Proof.
  assert (∀ st', bankFile st' = None → internalFile st' = None →
            uploadDisabled (bankFile st') st' = true
            ∧ uploadDisabled (internalFile st') st' = true
            ∧ step ClickUploadBank st' = st'
            ∧ step ClickUploadInternal st' = st') as Hdisabled.
  { intros st' Hb Hi. unfold step, handle, uploadDisabled. rewrite Hb, Hi.
    simpl. by rewrite commit_same_deps. }
  split_and!.
  - intros jobId r msg f Hreq Hfails Hfile st'.
    destruct (step_poll_fails st i jobId r msg Hreq Hfails) as (Hp & Hb & _).
    fold st' in Hp, Hb. unfold uploadDisabled. by rewrite Hb, Hfile, Hp.
  - intros endpoint file r msg Hreq Hfails st'.
    destruct (step_upload_fails st i endpoint file r msg Hreq Hfails)
      as (_ & Hb & Hi).
    by apply Hdisabled.
  - intros jobId newLogs lastLog Hreach Hreq Hlast Hterminal st'.
    destruct (step_poll_terminal st i jobId newLogs lastLog)
      as (_ & Hb & Hi & _); [done..|].
    by apply Hdisabled.
Qed.

Lemma resubmit_needs_the_selection_witness :
  uploadDisabled
    (bankFile (step (LogsSettle 0 (LogsNotOk "Bad Gateway")) demoSeen))
    (step (LogsSettle 0 (LogsNotOk "Bad Gateway")) demoSeen) = false.
Proof.
  assert (inflight (browser demoSeen) !! 0 = Some (GetLogs "abc")) as Hreq
    by (vm_compute; reflexivity).
  assert (bankFile demoSeen = Some demoFile) as Hfile
    by (vm_compute; reflexivity).
  destruct (resubmit_needs_the_selection demoSeen 0) as [Hpoll _].
  exact (proj2 (Hpoll "abc" _ _ demoFile Hreq
                  (pollFails_status "Bad Gateway") Hfile)).
Defined.

(** ** The first version of the page *)

(** What [addLogs] and the render leave alone on the single-file page. *)
Lemma single_addLogs_frame newLogs st :
  let st' := SingleFilePage.addLogs newLogs st in
  SingleFilePage.file st' = SingleFilePage.file st
  ∧ SingleFilePage.isProcessing st' = SingleFilePage.isProcessing st
  ∧ SingleFilePage.currentJobId st' = SingleFilePage.currentJobId st
  ∧ SingleFilePage.logMessages st'
    = addLogsUpdater newLogs (SingleFilePage.logMessages st)
  ∧ inflight (SingleFilePage.browser st') = inflight (SingleFilePage.browser st)
  ∧ SingleFilePage.pollingIntervalRef st' = SingleFilePage.pollingIntervalRef st
  ∧ intervals (SingleFilePage.browser st')
    = intervals (SingleFilePage.browser st).
Proof.
  unfold SingleFilePage.addLogs, addLogsUpdater. by case_decide.
Qed.

Lemma single_stopPolling_frame st :
  let st' := SingleFilePage.stopPolling st in
  SingleFilePage.file st' = SingleFilePage.file st
  ∧ SingleFilePage.isProcessing st' = SingleFilePage.isProcessing st
  ∧ SingleFilePage.currentJobId st' = SingleFilePage.currentJobId st
  ∧ SingleFilePage.logMessages st' = SingleFilePage.logMessages st
  ∧ inflight (SingleFilePage.browser st') = inflight (SingleFilePage.browser st).
Proof.
  unfold SingleFilePage.stopPolling.
  by destruct (SingleFilePage.pollingIntervalRef st).
Qed.

Lemma single_commit_frame prev next :
  let st' := SingleFilePage.commit prev next in
  SingleFilePage.file st' = SingleFilePage.file next
  ∧ SingleFilePage.isProcessing st' = SingleFilePage.isProcessing next
  ∧ SingleFilePage.currentJobId st' = SingleFilePage.currentJobId next
  ∧ SingleFilePage.logMessages st' = SingleFilePage.logMessages next
  ∧ inflight (SingleFilePage.browser st')
    = inflight (SingleFilePage.browser next).
Proof.
  unfold SingleFilePage.commit. case_decide; [done|].
  destruct (single_stopPolling_frame next) as (Hf & Hp & Hj & Hl & Hr).
  assert (SingleFilePage.pollingEffect (SingleFilePage.stopPolling next)
          = SingleFilePage.stopPolling next
          ∨ ∃ jobId, SingleFilePage.pollingEffect (SingleFilePage.stopPolling next)
                     = SingleFilePage.setInterval jobId
                         (SingleFilePage.stopPolling next)) as [-> | [jobId ->]].
  { unfold SingleFilePage.pollingEffect.
    destruct (SingleFilePage.currentJobId (SingleFilePage.stopPolling next))
      as [| |jobId]; [by left..|].
    destruct (truthyString jobId && _); [right; by exists jobId|by left]. }
  - done.
  - simpl. by split_and!.
Qed.

Lemma single_commit_same prev next :
  SingleFilePage.currentJobId prev = SingleFilePage.currentJobId next →
  SingleFilePage.isProcessing prev = SingleFilePage.isProcessing next →
  SingleFilePage.commit prev next = next.
Proof.
  intros Hjob Hproc. unfold SingleFilePage.commit. by rewrite decide_True.
Qed.

Lemma single_uploadSettled_fails r msg st :
  SingleFilePage.uploadFails r msg →
  ∃ e, SingleFilePage.uploadSettled r st = SingleFilePage.uploadCatch e st
       ∧ errorMessage e = msg.
Proof. destruct 1; eauto. Qed.

(** On the single-file page a failed upload (rejected [fetch], body
    that is not JSON, or status not ok) hands the line "Upload failed:
    <message>" to [addLogs] and clears the processing flag, and leaves
    the selected file where it is: the upload button is enabled again
    and a click posts the same file once more. The server's text is
    read from the body's [message] field. *)
Theorem single_file_upload_can_be_retried (st : SingleFilePage.Page) (i : nat)
    (endpoint : string) (posted : File) (r : SingleFilePage.UploadFetch)
    (msg : string) :
  inflight (SingleFilePage.browser st) !! i = Some (PostFile endpoint posted) →
  SingleFilePage.uploadFails r msg →
  let st' := SingleFilePage.step (SingleFilePage.UploadSettles i r) st in
  SingleFilePage.file st' = SingleFilePage.file st
  ∧ SingleFilePage.isProcessing st' = false
  ∧ SingleFilePage.logMessages st'
    = addLogsUpdater [ {| type := error; text := "Upload failed: " +:+ msg |} ]
                     (SingleFilePage.logMessages st)
  ∧ inflight (SingleFilePage.browser st')
    = delete i (inflight (SingleFilePage.browser st))
  ∧ (∀ f, SingleFilePage.file st = Some f →
          SingleFilePage.uploadDisabled st' = false
          ∧ inflight (SingleFilePage.browser
                        (SingleFilePage.step SingleFilePage.ClickUpload st'))
            = delete i (inflight (SingleFilePage.browser st))
              ++ [PostFile "/api/ingest" f])
  ∧ (∀ m, m ≠ "" →
          SingleFilePage.uploadFailureMessage
            {| SingleFilePage.message := Some m;
               SingleFilePage.job_id := None |} = m).
Proof.
  intros Hreq Hfails st'.
  assert (st' = SingleFilePage.commit st
                  (SingleFilePage.uploadSettled r (SingleFilePage.settle i st)))
    as Hst'
    by (unfold st', SingleFilePage.step, SingleFilePage.handle; by rewrite Hreq).
  destruct (single_uploadSettled_fails r msg (SingleFilePage.settle i st) Hfails)
    as (e & Hcatch & <-).
  rewrite Hcatch in Hst'.
  set (entry := {| type := error;
                   text := "Upload failed: " +:+ errorMessage e |}) in *.
  destruct (single_addLogs_frame [entry] (SingleFilePage.settle i st))
    as (Hf & _ & _ & Hl & Hr & _).
  destruct (single_commit_frame st
              (SingleFilePage.uploadCatch e (SingleFilePage.settle i st)))
    as (Hf' & Hp' & _ & Hl' & Hr').
  rewrite <- Hst' in Hf', Hp', Hl', Hr'.
  unfold SingleFilePage.uploadCatch in Hf', Hp', Hl', Hr'.
  fold entry in Hf', Hp', Hl', Hr'. simpl in Hf', Hp', Hl', Hr'.
  assert (SingleFilePage.file st' = SingleFilePage.file st) as Hfile
    by by rewrite Hf', Hf.
  assert (inflight (SingleFilePage.browser st')
          = delete i (inflight (SingleFilePage.browser st))) as Hinflight
    by by rewrite Hr', Hr.
  split_and!; [done|done|by rewrite Hl', Hl|done| |].
  - intros f Hsel.
    assert (SingleFilePage.uploadDisabled st' = false) as Henabled
      by (unfold SingleFilePage.uploadDisabled; by rewrite Hfile, Hsel, Hp').
    split; [done|].
    unfold SingleFilePage.step, SingleFilePage.handle. rewrite Henabled.
    destruct (single_commit_frame st' (SingleFilePage.handleUpload st'))
      as (_ & _ & _ & _ & ->).
    unfold SingleFilePage.handleUpload. rewrite Hfile, Hsel.
    set (uploading := {| type := info;
                         text := "Uploading " +:+ name f +:+ "..." |}).
    destruct (single_addLogs_frame [uploading]
                (SingleFilePage.setLogMessages []
                   (SingleFilePage.setCurrentJobId null
                      (SingleFilePage.setIsProcessing true st'))))
      as (_ & _ & _ & _ & Hr2 & _).
    simpl. by rewrite Hr2, <- Hinflight.
  - intros m Hm. unfold SingleFilePage.uploadFailureMessage, truthyString.
    simpl. by rewrite bool_decide_eq_true_2.
Qed.

Lemma single_file_upload_can_be_retried_witness :
  SingleFilePage.file
    (SingleFilePage.step
       (SingleFilePage.UploadSettles 0
          (SingleFilePage.UploadResponse false
             {| SingleFilePage.message := Some "Unsupported file";
                SingleFilePage.job_id := None |}))
       SingleFilePage.demoUploading)
  = SingleFilePage.file SingleFilePage.demoUploading.
Proof.
  assert (inflight (SingleFilePage.browser SingleFilePage.demoUploading) !! 0
          = Some (PostFile "/api/ingest" demoFile)) as Hreq
    by (vm_compute; reflexivity).
  pose proof (single_file_upload_can_be_retried SingleFilePage.demoUploading 0
                _ _ _ _ Hreq
                (SingleFilePage.uploadFails_status
                   {| SingleFilePage.message := Some "Unsupported file";
                      SingleFilePage.job_id := None |})) as [Hfile _].
  exact Hfile.
Defined.

Lemma single_pollSettled_batch newLogs lastLog st :
  last newLogs = Some lastLog →
  SingleFilePage.pollSettled (LogsResponse (Some newLogs)) st
  = if isTerminalLog lastLog
    then SingleFilePage.setFile None (SingleFilePage.setIsProcessing false
           (SingleFilePage.stopPolling (SingleFilePage.addLogs newLogs st)))
    else SingleFilePage.addLogs newLogs st.
Proof.
  intros Hlast. unfold SingleFilePage.pollSettled. rewrite last_index, Hlast.
  rewrite decide_True; [done|].
  destruct newLogs; [done|simpl; lia].
Qed.

Lemma single_pollSettled_fails r msg st :
  pollFails r msg →
  ∃ e, SingleFilePage.pollSettled r st = SingleFilePage.pollCatch e st
       ∧ errorMessage e = msg.
Proof. destruct 1; eauto. Qed.

(** The poll results of the single-file page. A batch whose last entry
    is terminal clears the processing flag and the selected file; a
    batch whose last entry is not terminal only goes through
    [addLogs]; a failed request hands "Failed to fetch logs:
    <message>" to [addLogs] and clears the flag but keeps the file. In
    each case the answered request leaves the requests in flight and
    no other request is issued. *)
Theorem single_file_poll_outcomes (st : SingleFilePage.Page) (i : nat)
    (jobId : string) :
  inflight (SingleFilePage.browser st) !! i = Some (GetLogs jobId) →
  (∀ newLogs lastLog,
     last newLogs = Some lastLog →
     let st' := SingleFilePage.step
                  (SingleFilePage.LogsSettle i (LogsResponse (Some newLogs))) st in
     SingleFilePage.logMessages st'
     = addLogsUpdater newLogs (SingleFilePage.logMessages st)
     ∧ inflight (SingleFilePage.browser st')
       = delete i (inflight (SingleFilePage.browser st))
     ∧ (isTerminalLog lastLog = true →
        SingleFilePage.isProcessing st' = false
        ∧ SingleFilePage.file st' = None)
     ∧ (isTerminalLog lastLog = false →
        st' = SingleFilePage.addLogs newLogs (SingleFilePage.settle i st)))
  ∧ (∀ r msg,
       pollFails r msg →
       let st' := SingleFilePage.step (SingleFilePage.LogsSettle i r) st in
       SingleFilePage.logMessages st'
       = addLogsUpdater
           [ {| type := error; text := "Failed to fetch logs: " +:+ msg |} ]
           (SingleFilePage.logMessages st)
       ∧ inflight (SingleFilePage.browser st')
         = delete i (inflight (SingleFilePage.browser st))
       ∧ SingleFilePage.isProcessing st' = false
       ∧ SingleFilePage.file st' = SingleFilePage.file st).
Proof.
  intros Hreq. split.
  - intros newLogs lastLog Hlast st'.
    assert (st' = SingleFilePage.commit st
                    (SingleFilePage.pollSettled (LogsResponse (Some newLogs))
                       (SingleFilePage.settle i st))) as Hst'
      by (unfold st', SingleFilePage.step, SingleFilePage.handle;
          by rewrite Hreq).
    rewrite (single_pollSettled_batch _ lastLog) in Hst' by done.
    set (logged := SingleFilePage.addLogs newLogs (SingleFilePage.settle i st))
      in *.
    destruct (single_addLogs_frame newLogs (SingleFilePage.settle i st))
      as (Hf & Hp & Hj & Hl & Hr & _).
    fold logged in Hf, Hp, Hj, Hl, Hr.
    destruct (single_stopPolling_frame logged) as (Hf1 & Hp1 & Hj1 & Hl1 & Hr1).
    destruct (isTerminalLog lastLog) eqn:Hterminal.
    + destruct (single_commit_frame st
                  (SingleFilePage.setFile None
                     (SingleFilePage.setIsProcessing false
                        (SingleFilePage.stopPolling logged))))
        as (Hf' & Hp' & _ & Hl' & Hr').
      rewrite <- Hst' in Hf', Hp', Hl', Hr'. simpl in Hf', Hp', Hl', Hr'.
      split_and!; [by rewrite Hl', Hl1, Hl|by rewrite Hr', Hr1, Hr|done|done].
    + rewrite single_commit_same in Hst'.
      * rewrite Hst'. split_and!; [done|done|done|done].
      * by rewrite Hj.
      * by rewrite Hp.
  - intros r msg Hfails st'.
    assert (st' = SingleFilePage.commit st
                    (SingleFilePage.pollSettled r (SingleFilePage.settle i st)))
      as Hst'
      by (unfold st', SingleFilePage.step, SingleFilePage.handle;
          by rewrite Hreq).
    destruct (single_pollSettled_fails r msg (SingleFilePage.settle i st) Hfails)
      as (e & Hcatch & <-).
    rewrite Hcatch in Hst'.
    set (entry := {| type := error;
                     text := "Failed to fetch logs: " +:+ errorMessage e |}).
    destruct (single_addLogs_frame [entry] (SingleFilePage.settle i st))
      as (Hf & _ & _ & Hl & Hr & _).
    destruct (single_stopPolling_frame
                (SingleFilePage.addLogs [entry] (SingleFilePage.settle i st)))
      as (Hf1 & _ & _ & Hl1 & Hr1).
    destruct (single_commit_frame st
                (SingleFilePage.pollCatch e (SingleFilePage.settle i st)))
      as (Hf' & Hp' & _ & Hl' & Hr').
    rewrite <- Hst' in Hf', Hp', Hl', Hr'.
    unfold SingleFilePage.pollCatch in Hf', Hp', Hl', Hr'.
    fold entry in Hf', Hp', Hl', Hr'. simpl in Hf', Hp', Hl', Hr'.
    split_and!.
    + by rewrite Hl', Hl1, Hl.
    + by rewrite Hr', Hr1, Hr.
    + done.
    + by rewrite Hf', Hf1, Hf.
Qed.

Lemma single_file_poll_outcomes_witness :
  SingleFilePage.file
    (SingleFilePage.step
       (SingleFilePage.LogsSettle 0
          (LogsResponse (Some [ {| type := success;
                                   text := "Job abc finished" |} ])))
       SingleFilePage.demoPolling)
  = None.
Proof.
  assert (inflight (SingleFilePage.browser SingleFilePage.demoPolling) !! 0
          = Some (GetLogs "abc")) as Hreq
    by (vm_compute; reflexivity).
  destruct (single_file_poll_outcomes SingleFilePage.demoPolling 0 "abc" Hreq)
    as [Hbatch _].
  destruct (Hbatch [ {| type := success; text := "Job abc finished" |} ]
              {| type := success; text := "Job abc finished" |} eq_refl)
    as (_ & _ & Hterminal & _).
  exact (proj2 (Hterminal eq_refl)).
Defined.

(** ** The period of a report request *)








(** The setters store what they are handed: were a select to report a
    month that is none of its options, the click would send it. *)
Lemma unoffered_month_is_sent :
  offered (SelectMonth (Some "13")) = false
  ∧ inflight (browser (run [SelectMonth (Some "13"); ClickGenerateReport]
                           (initialDashboard "2025" "11")))
    = [GetMonthlyDre "2025" "13"].
Proof. split; by vm_compute. Qed.


